(** * gofem documentation builder ([xgendoc.py]): model and verification

    The script loads the [LICENSE] text, then drives [/bin/sh] through
    [subprocess.Popen(..., shell=True)]: every file it produces is written by
    an [echo "..." > file] or [... >> file] command line, and links are fixed
    by a [sed -i] substitution.  The model therefore has three layers:

    - the pure string functions of the script ([header], [footer],
      [pkgheader], [pkgitem], the flat file name);
    - the command interpreter, for the command lines the script can issue
      (quoting, redirection, [echo], [godoc], [sed]);
    - the script itself, as a program in a small state-and-exception monad
      over the file system and the console. *)

From Stdlib Require Import String Ascii List ZArith Lia Bool.
From stdpp Require Import gmap strings.
Import ListNotations.

#[local] Open Scope string_scope.
#[local] Arguments String.append : simpl nomatch.

(** ** Text *)

(** Characters that cannot be written inside a literal. *)
Definition NL : string := String "010"%char EmptyString.
Definition DQ : string := String "034"%char EmptyString.
Definition BSL : string := String "092"%char EmptyString.
(** [BQ] is the two-character sequence backslash, double quote: what the
    Python source spells as two backslashes and a quote inside its (non-raw)
    string literals. *)
Definition BQ : string := BSL ++ DQ.

Definition ascii_eqb_nat (c : ascii) (n : nat) : bool := Nat.eqb (nat_of_ascii c) n.

Fixpoint drop_str (n : nat) (s : string) : string :=
  match n, s with
  | O, _ => s
  | S _, EmptyString => EmptyString
  | S k, String _ s' => drop_str k s'
  end.

Fixpoint mem_char (c : ascii) (s : string) : bool :=
  match s with
  | EmptyString => false
  | String d s' => Ascii.eqb c d || mem_char c s'
  end.

Fixpoint all_chars (f : ascii -> bool) (s : string) : bool :=
  match s with
  | EmptyString => true
  | String c s' => f c && all_chars f s'
  end.

(** [occurs_at p s i]: the text [p] occurs in [s] at offset [i]. *)
Definition occurs_at (p s : string) (i : nat) : bool :=
  Nat.leb i (String.length s) && String.prefix p (drop_str i s).

(** [occurs p s]: [p] is a substring of [s] (Python's [p in s]). *)
Fixpoint occurs (p s : string) : bool :=
  String.prefix p s ||
  match s with
  | EmptyString => false
  | String _ s' => occurs p s'
  end.

(** Replacement of every occurrence of a non-empty [old], scanning from the
    left and resuming after each replaced occurrence.  [skip] counts the
    characters of a matched occurrence that are still to be passed over. *)
Fixpoint replace_from (old new : string) (skip : nat) (s : string) : string :=
  match s with
  | EmptyString => EmptyString
  | String c s' =>
      match skip with
      | S k => replace_from old new k s'
      | O =>
          if String.prefix old s
          then new ++ replace_from old new (String.length old - 1) s'
          else String c (replace_from old new 0 s')
      end
  end.

Definition replace_all (old new s : string) : string := replace_from old new 0 s.

(** Python's [str.replace(old, new)].  With an empty [old], Python inserts
    [new] before every character and at the end. *)
Fixpoint intersperse (new s : string) : string :=
  match s with
  | EmptyString => new
  | String c s' => new ++ String c (intersperse new s')
  end.

Definition str_replace (s old new : string) : string :=
  match old with
  | EmptyString => intersperse new s
  | _ => replace_all old new s
  end.

(** Python 2 [str.strip()] with no argument: removes leading and trailing
    characters among space, tab, newline, carriage return, vertical tab and
    form feed. *)
Definition py_space (c : ascii) : bool :=
  let n := nat_of_ascii c in
  Nat.eqb n 32 || (Nat.leb 9 n && Nat.leb n 13).

Fixpoint lstrip (s : string) : string :=
  match s with
  | EmptyString => EmptyString
  | String c s' => if py_space c then lstrip s' else s
  end.

Fixpoint rstrip (s : string) : string :=
  match s with
  | EmptyString => EmptyString
  | String c s' =>
      match rstrip s' with
      | EmptyString => if py_space c then EmptyString else String c EmptyString
      | r => String c r
      end
  end.

Definition strip (s : string) : string := lstrip (rstrip s).

(** ** The pure functions of the script *)

(** [pkgs]: the registry, a list of (path, description) pairs. *)
Definition pkgs : list (string * string) :=
  [ ("ana"              , "analytical solutions");
    ("shp"              , "shape (interpolation) structures and quadrature points");
    ("mdl/generic"      , "generic models (placeholder for parameters set)");
    ("mdl/solid"        , "models for solids");
    ("mdl/fluid"        , "models for fluids (liquid / gas)");
    ("mdl/conduct"      , "models for liquid conductivity within porous media");
    ("mdl/retention"    , "models for liquid retention within porous media");
    ("mdl/diffusion"    , "models for diffusion applications");
    ("mdl/thermomech"   , "models for thermo-mechanical applications");
    ("mdl/porous"       , "models for porous media (TPM-based)");
    ("inp"              , "input data (.sim = simulation, .mat = materials, .msh = meshes)");
    ("ele"              , "finite elements");
    ("ele/solid"        , "elements for solid mechanics");
    ("ele/seepage"      , "elements for seepage problems (with liquid and/or gases)");
    ("ele/diffusion"    , "elements for diffusion(-like) problems");
    ("ele/thermomech"   , "elements for thermo-mechanical applications");
    ("ele/porous"       , "elements for porous media simulations (TPM)");
    ("fem"              , "finite element method (main, domain, solver, ...)");
    ("tests"            , "(unit) tests of complete simulations");
    ("tests/solid"      , "tests of solid mechanics applications");
    ("tests/seepage"    , "tests of seepage problems");
    ("tests/diffusion"  , "tests of diffusion problems");
    ("tests/thermomech" , "tests of thermo-mechanical applications");
    ("tests/porous"     , "tests of porous media simulations");
    ("out"              , "output routines (post-processing and plotting)") ].

Definition odir : string := "doc/".
Definition idxfn : string := odir ++ "index.html".

(** [header(title)]: the triple-quoted template, one line of the source per
    line here; [%s] is replaced by [title]. *)
Definition header (title : string) : string :=
  "<html>" ++ NL ++
  "<head>" ++ NL ++
  "<meta http-equiv=" ++ BQ ++ "Content-Type" ++ BQ ++ " content=" ++ BQ ++ "text/html; charset=utf-8" ++ BQ ++ ">" ++ NL ++
  "<meta name=" ++ BQ ++ "viewport" ++ BQ ++ " content=" ++ BQ ++ "width=device-width, initial-scale=1" ++ BQ ++ ">" ++ NL ++
  "<meta name=" ++ BQ ++ "theme-color" ++ BQ ++ " content=" ++ BQ ++ "#375EAB" ++ BQ ++ ">" ++ NL ++
  "<title>" ++ title ++ "</title>" ++ NL ++
  "<link type=" ++ BQ ++ "text/css" ++ BQ ++ " rel=" ++ BQ ++ "stylesheet" ++ BQ ++ " href=" ++ BQ ++ "static/style.css" ++ BQ ++ ">" ++ NL ++
  "<script type=" ++ BQ ++ "text/javascript" ++ BQ ++ " src=" ++ BQ ++ "static/godocs.js" ++ BQ ++ "></script>" ++ NL ++
  "<style type=" ++ BQ ++ "text/css" ++ BQ ++ "></style>" ++ NL ++
  "</head>" ++ NL ++
  "<body>" ++ NL ++
  "<div id=" ++ BQ ++ "page" ++ BQ ++ " class=" ++ BSL ++ "wide" ++ BQ ++ ">" ++ NL ++
  "<div class=" ++ BQ ++ "container" ++ BQ ++ ">" ++ NL.

(** [footer()]: reads the global [licen]; here it is a parameter. *)
Definition footer (licen : string) : string :=
  NL ++
  "<div id=" ++ BQ ++ "footer" ++ BQ ++ ">" ++ NL ++
  "<br /><br />" ++ NL ++
  "<hr>" ++ NL ++
  "<pre class=" ++ BQ ++ "copyright" ++ BQ ++ ">" ++ NL ++
  licen ++ "</pre><!-- copyright -->" ++ NL ++
  "</div><!-- footer -->" ++ NL ++
  NL ++
  "</div><!-- container -->" ++ NL ++
  "</div><!-- page -->" ++ NL ++
  "</body>" ++ NL ++
  "</html>".

Definition pkgheader (pkg : string * string) : string :=
  header ("Gofem &ndash; package " ++ fst pkg) ++
  "<h1>Gofem &ndash; <b>" ++ fst pkg ++ "</b> &ndash; " ++ snd pkg ++ "</h1>".

(** [fnk = pkg[0].replace("/","-")], computed both in [pkgitem] and in the
    main loop. *)
Definition flatName (path : string) : string := str_replace path "/" "-".

Definition pkgitem (pkg : string * string) : string :=
  let fnk := flatName (fst pkg) in
  "<dd><a href=" ++ BQ ++ "xx" ++ fnk ++ ".html" ++ BQ ++ "><b>" ++ fst pkg ++ "</b>: " ++ snd pkg ++ "</a></dd>".

(** [fn = odir+'xx'+fnk+'.html'] *)
Definition pkgfile (pkg : string * string) : string :=
  odir ++ "xx" ++ flatName (fst pkg) ++ ".html".

(** ** The command interpreter

    [subprocess.Popen(command, shell=True)] runs [/bin/sh -c command].  The
    model covers the fragment of the shell language that the script's command
    lines live in: words made of plain characters, double and single quotes,
    the redirections [>] and [>>], and the three programs [echo], [godoc] and
    [sed].  A command line that leaves the fragment (expansions, command
    separators, other programs, ...) is [Unsupported]: the model makes no
    statement about it. *)

Inductive token := Word (w : string) | Gt | GtGt.

Inductive lexres := Toks (ts : list token) | SyntaxError | Unsupported.

Inductive lmode := Blank | InWord | InDq | InSq.

(** [push c r]: [c] is one more character at the front of the word that [r]
    starts with. *)
Definition push (c : ascii) (r : lexres) : lexres :=
  match r with
  | Toks (Word w :: ts) => Toks (Word (String c w) :: ts)
  | Toks _ => Unsupported
  | other => other
  end.

Definition emit (t : token) (r : lexres) : lexres :=
  match r with
  | Toks ts => Toks (t :: ts)
  | other => other
  end.

Definition is_blank (c : ascii) : bool := ascii_eqb_nat c 32 || ascii_eqb_nat c 9.
Definition is_dquote (c : ascii) : bool := ascii_eqb_nat c 34.
Definition is_squote (c : ascii) : bool := ascii_eqb_nat c 39.
Definition is_bslash (c : ascii) : bool := ascii_eqb_nat c 92.
Definition is_newline (c : ascii) : bool := ascii_eqb_nat c 10.
Definition is_gt (c : ascii) : bool := ascii_eqb_nat c 62.
Definition is_dollar (c : ascii) : bool := ascii_eqb_nat c 36.
Definition is_bquote (c : ascii) : bool := ascii_eqb_nat c 96.

(** Characters that stand for themselves in an unquoted word. *)
Definition is_plain (c : ascii) : bool :=
  let n := nat_of_ascii c in
  (Nat.leb 97 n && Nat.leb n 122) || (Nat.leb 65 n && Nat.leb n 90) ||
  (Nat.leb 48 n && Nat.leb n 57) ||
  Nat.eqb n 45 || Nat.eqb n 46 || Nat.eqb n 47 || Nat.eqb n 95.

(** Inside double quotes a backslash quotes only these four characters (and
    a newline, which it removes with itself). *)
Definition dq_escapable (c : ascii) : bool :=
  is_dquote c || is_bslash c || is_dollar c || is_bquote c.

Fixpoint lex (m : lmode) (s : string) : lexres :=
  match s with
  | EmptyString =>
      match m with
      | Blank => Toks []
      | InWord => Toks [Word EmptyString]
      | InDq | InSq => SyntaxError
      end
  | String c s' =>
      match m with
      | Blank =>
          if is_blank c then lex Blank s'
          else if is_gt c then
            match s' with
            | String d s'' =>
                if is_gt d then emit GtGt (lex Blank s'') else emit Gt (lex Blank s')
            | EmptyString => emit Gt (lex Blank s')
            end
          else if is_dquote c then lex InDq s'
          else if is_squote c then lex InSq s'
          else if is_plain c then push c (lex InWord s')
          else Unsupported
      | InWord =>
          if is_blank c then emit (Word EmptyString) (lex Blank s')
          else if is_dquote c then lex InDq s'
          else if is_squote c then lex InSq s'
          else if is_plain c then push c (lex InWord s')
          else Unsupported
      | InDq =>
          if is_dquote c then lex InWord s'
          else if is_bslash c then
            match s' with
            | EmptyString => SyntaxError
            | String d s'' =>
                if dq_escapable d then push d (lex InDq s'')
                else if is_newline d then lex InDq s''
                else push c (push d (lex InDq s''))
            end
          else if is_dollar c || is_bquote c then Unsupported
          else push c (lex InDq s')
      | InSq =>
          if is_squote c then lex InWord s'
          else push c (lex InSq s')
      end
  end.

(** A simple command: its words and its redirections ([true] for [>>]). *)
Record simple_cmd := { argv : list string; redirs : list (bool * string) }.

Fixpoint parse_cmd (ts : list token) : option simple_cmd :=
  match ts with
  | [] => Some {| argv := []; redirs := [] |}
  | Word w :: ts' =>
      match parse_cmd ts' with
      | Some c => Some {| argv := w :: argv c; redirs := redirs c |}
      | None => None
      end
  | Gt :: Word f :: ts' =>
      match parse_cmd ts' with
      | Some c => Some {| argv := argv c; redirs := (false, f) :: redirs c |}
      | None => None
      end
  | GtGt :: Word f :: ts' =>
      match parse_cmd ts' with
      | Some c => Some {| argv := argv c; redirs := (true, f) :: redirs c |}
      | None => None
      end
  | _ => None
  end.

(** [echo]: the arguments separated by single spaces, then a newline.  The
    implementations of [/bin/sh] disagree on options and on backslash
    sequences such as backslash-n, so the model covers only arguments on
    which they agree: no leading option, and every backslash followed by a
    character that no implementation treats as an escape. *)
Definition echo_escape (c : ascii) : bool :=
  mem_char c "abcefnrtv0123456789xuU" || is_bslash c.

Fixpoint echo_portable (s : string) : bool :=
  match s with
  | EmptyString => true
  | String c s' =>
      if is_bslash c then
        match s' with
        | EmptyString => false
        | String d _ => negb (echo_escape d) && echo_portable s'
        end
      else echo_portable s'
  end.

Definition echo_args_ok (args : list string) : bool :=
  match args with
  | String c _ :: _ => negb (ascii_eqb_nat c 45) && forallb echo_portable args
  | _ => forallb echo_portable args
  end.

Definition echo_out (args : list string) : string := String.concat " " args ++ NL.

(** [sed -i -e 's@old@new@g' file].  The model covers a script whose
    pattern is a literal (no character special in a basic regular
    expression) and whose replacement has no [&] and no backslash.  Neither
    holds a newline, so that the line-by-line substitution of [sed] is the
    replacement of every occurrence in the whole text. *)
Definition sed_pattern_char (c : ascii) : bool :=
  negb (mem_char c ".[]*^$" || is_bslash c || is_newline c).

Definition sed_replacement_char (c : ascii) : bool :=
  negb (mem_char c "&" || is_bslash c || is_newline c).

Fixpoint split_at (d : ascii) (s : string) : option (string * string) :=
  match s with
  | EmptyString => None
  | String c s' =>
      if Ascii.eqb c d then Some (EmptyString, s')
      else match split_at d s' with
           | Some (a, b) => Some (String c a, b)
           | None => None
           end
  end.

Definition parse_sed (script : string) : option (string * string) :=
  match script with
  | String s_ (String d rest) =>
      if ascii_eqb_nat s_ 115 && negb (is_plain d || is_blank d || is_bslash d || is_newline d) then
        match split_at d rest with
        | Some (String p0 p', rest') =>
            match split_at d rest' with
            | Some (r, flags) =>
                if String.eqb flags "g" && all_chars sed_pattern_char (String p0 p') &&
                   all_chars sed_replacement_char r
                then Some (String p0 p', r)
                else None
            | None => None
            end
        | _ => None
        end
      else None
  | _ => None
  end.

(** What a subprocess leaves behind: the two captured streams, the exit
    status and the file system. *)
Record process := {
  p_stdout : string;
  p_stderr : string;
  p_status : Z;
  p_files : gmap string string
}.

Section Shell.

(** The external documentation tool: the standard output of
    [godoc -html <package>]. *)
Variable godoc : string -> string.

(** What a command line writes on its standard error and its exit status
    are left to the tools: diagnostics differ between implementations. *)
Variable report : string -> gmap string string -> string * Z.

(** Opening a redirection target: [>] creates or truncates, [>>] creates
    the file when it is not there.  File names are flat keys; the output
    directory is taken to exist and to be writable. *)
Definition open_redir (fs : gmap string string) (r : bool * string) : gmap string string :=
  match r with
  | (false, f) => <[f := EmptyString]> fs
  | (true, f) =>
      match fs !! f with
      | Some _ => fs
      | None => <[f := EmptyString]> fs
      end
  end.

Definition append_file (f out : string) (fs : gmap string string) : gmap string string :=
  <[f := default EmptyString (fs !! f) ++ out]> fs.

(** A program of the fragment: its standard output and its effect on the
    files; [None] for anything else. *)
Definition run_prog (args : list string) (fs : gmap string string)
  : option (string * gmap string string) :=
  match args with
  | "echo" :: rest =>
      if echo_args_ok rest then Some (echo_out rest, fs) else None
  | ["godoc"; "-html"; pkg] => Some (godoc pkg, fs)
  | ["sed"; "-i"; "-e"; script; file] =>
      match parse_sed script with
      | Some (old, new) =>
          match fs !! file with
          | Some text => Some (EmptyString, <[file := replace_all old new text]> fs)
          | None => Some (EmptyString, fs)
          end
      | None => None
      end
  | _ => None
  end.

(** A simple command: the redirections are opened from left to right, the
    program runs, and its standard output goes to the last target, or to
    the pipe that [Popen] reads when there is none. *)
Definition run_simple (c : simple_cmd) (fs : gmap string string)
  : option (string * gmap string string) :=
  let fs1 := fold_left open_redir (redirs c) fs in
  match run_prog (argv c) fs1 with
  | Some (out, fs2) =>
      match last (redirs c) with
      | Some (_, f) =>
          match argv c with
          | "sed" :: _ => None
          | _ => Some (EmptyString, append_file f out fs2)
          end
      | None => Some (out, fs2)
      end
  | None => None
  end.

(** [/bin/sh -c command].  A command line with a syntax error runs
    nothing. *)
Definition sh (command : string) (fs : gmap string string) : option process :=
  let finish (r : string * gmap string string) :=
    {| p_stdout := fst r; p_stderr := fst (report command fs);
       p_status := snd (report command fs); p_files := snd r |} in
  match lex Blank command with
  | Toks ts =>
      match parse_cmd ts with
      | Some c => option_map finish (run_simple c fs)
      | None => Some (finish (EmptyString, fs))
      end
  | SyntaxError => Some (finish (EmptyString, fs))
  | Unsupported => None
  end.

End Shell.

(** ** The script *)

(** The state the script acts on: the files and the lines it prints. *)
Record World := { files : gmap string string; console : list string }.

Inductive exn := IOError | NameError.

(** A statement ends normally, raises a Python exception that nothing
    catches, or leaves the modelled fragment of the shell. *)
Inductive outcome (A : Type) :=
| Ok (a : A) (w : World)
| Raised (e : exn) (w : World)
| Unmodelled.
Arguments Ok {A} a w.
Arguments Raised {A} e w.
Arguments Unmodelled {A}.

Definition M (A : Type) : Type := World -> outcome A.

Definition ret {A} (a : A) : M A := fun w => Ok a w.

Definition bind {A B} (m : M A) (k : A -> M B) : M B :=
  fun w =>
    match m w with
    | Ok a w' => k a w'
    | Raised e w' => Raised e w'
    | Unmodelled => Unmodelled
    end.

Definition raise {A} (e : exn) : M A := fun w => Raised e w.

Notation "x <- m ;; k" := (bind m (fun x => k))
  (at level 100, m at next level, right associativity).
Notation "m ;; k" := (bind m (fun _ => k))
  (at level 100, right associativity).

Fixpoint for_each {A} (l : list A) (body : A -> M unit) : M unit :=
  match l with
  | [] => ret tt
  | x :: l' => body x ;; for_each l' body
  end.

(** The [print] statement: one more line on the console. *)
Definition print (line : string) : M unit :=
  fun w => Ok tt {| files := files w; console := console w ++ [line] |}.

(** [open(name, 'r').read()] *)
Definition open_read (name : string) : M string :=
  fun w =>
    match files w !! name with
    | Some text => Ok text w
    | None => Raised IOError w
    end.

(** Names visible from the body of [Cmd]: its parameters, the names the
    module binds, and the builtins of Python 2. *)
Definition Cmd_locals : list string := ["command"; "verbose"; "debug"].

Definition module_globals : list string :=
  ["subprocess"; "Cmd"; "pkgs"; "odir"; "idxfn"; "licen"; "header"; "footer";
   "pkgheader"; "pkgitem"; "pkg"; "fnk"; "fn"].

Definition python2_builtins : list string :=
  ["abs"; "all"; "any"; "apply"; "basestring"; "bin"; "bool"; "buffer";
   "bytearray"; "bytes"; "callable"; "chr"; "classmethod"; "cmp"; "coerce";
   "compile"; "complex"; "copyright"; "credits"; "delattr"; "dict"; "dir";
   "divmod"; "enumerate"; "eval"; "execfile"; "exit"; "file"; "filter";
   "float"; "format"; "frozenset"; "getattr"; "globals"; "hasattr"; "hash";
   "help"; "hex"; "id"; "input"; "int"; "intern"; "isinstance"; "issubclass";
   "iter"; "len"; "license"; "list"; "locals"; "long"; "map"; "max";
   "memoryview"; "min"; "next"; "object"; "oct"; "open"; "ord"; "pow";
   "print"; "property"; "quit"; "range"; "raw_input"; "reduce"; "reload";
   "repr"; "reversed"; "round"; "set"; "setattr"; "slice"; "sorted";
   "staticmethod"; "str"; "sum"; "super"; "tuple"; "type"; "unichr";
   "unicode"; "vars"; "xrange"; "zip"; "True"; "False"; "None"].

Definition name_bound (name : string) : bool :=
  existsb (String.eqb name) (Cmd_locals ++ module_globals ++ python2_builtins).

(** Evaluating a name inside [Cmd] for printing.  The text printed for a
    bound name depends on the object it is bound to, which is not modelled. *)
Definition load_name (name : string) : M string :=
  fun w => if name_bound name then Unmodelled else Raised NameError w.

Definition rule : string := "==================================================".

Section Script.

(** [subprocess.Popen(command, shell=True, stdout=PIPE, stderr=PIPE)]
    followed by the reading of both pipes; [None] when the command line is
    outside the modelled fragment. *)
Variable spawn : string -> gmap string string -> option process.

Definition Popen (command : string) : M process :=
  fun w =>
    match spawn command (files w) with
    | Some p => Ok p {| files := p_files p; console := console w |}
    | None => Unmodelled
    end.

Definition Cmd (command : string) (verbose debug : bool) : M (string * string) :=
  (if debug then
     print rule ;;
     cmd <- load_name "cmd" ;;
     print cmd ;;
     print rule
   else ret tt) ;;
  spr <- Popen command ;;
  let out := p_stdout spr in
  let err := strip (p_stderr spr) in
  (if verbose then
     print out ;;
     print err
   else ret tt) ;;
  ret (out, err).

(** The body of [for pkg in pkgs:]. *)
Definition loop_body (licen : string) (pkg : string * string) : M unit :=
  let fnk := str_replace (fst pkg) "/" "-" in
  let fn := odir ++ "xx" ++ fnk ++ ".html" in
  print fn ;;
  Cmd ("echo " ++ DQ ++ pkgheader pkg ++ DQ ++ " > " ++ fn) false false ;;
  Cmd ("godoc -html github.com/cpmech/gofem/" ++ fst pkg ++ " >> " ++ fn) false false ;;
  Cmd ("echo " ++ DQ ++ footer licen ++ DQ ++ " >> " ++ fn) false false ;;
  Cmd ("echo " ++ DQ ++ pkgitem pkg ++ DQ ++ " >> " ++ idxfn) false false ;;
  Cmd ("sed -i -e 's@/src/target@https://github.com/cpmech/gofem/blob/master/"
         ++ fst pkg ++ "@g' " ++ fn ++ EmptyString) false false ;;
  ret tt.

(** The module-level statements, in source order, over a registry. *)
Definition script (registry : list (string * string)) : M unit :=
  licen <- open_read "LICENSE" ;;
  Cmd ("echo " ++ DQ ++ header "Gofem &ndash; Documentation" ++ DQ ++ " > " ++ idxfn) false false ;;
  Cmd ("echo " ++ DQ ++ "<h1>Gofem &ndash; Documentation</h1>" ++ DQ ++ " >> " ++ idxfn) false false ;;
  Cmd ("echo " ++ DQ ++ "<h2 id=" ++ BQ ++ "pkg-index" ++ BQ ++ ">Index</h2>" ++ NL ++
       "<div id=" ++ BQ ++ "manual-nav" ++ BQ ++ ">" ++ NL ++ "<dl>" ++ DQ ++ " >> " ++ idxfn) false false ;;
  for_each registry (loop_body licen) ;;
  Cmd ("echo " ++ DQ ++ "</dl>" ++ NL ++ "</div><!-- manual-nav -->" ++ DQ ++ " >> " ++ idxfn) false false ;;
  Cmd ("echo " ++ DQ ++ footer licen ++ DQ ++ " >> " ++ idxfn) false false ;;
  ret tt.

End Script.

(** The script run against the modelled shell. *)
Definition run (godoc : string -> string) (report : string -> gmap string string -> string * Z)
    (registry : list (string * string)) : M unit :=
  script (sh godoc report) registry.

(** [xgendoc.py] itself. *)
Definition xgendoc godoc report : M unit := run godoc report pkgs.

(** ** What the files hold

    The text that lands in a file is the command-line text after the shell
    has removed its quoting.  [unescape] is the word denoted by the body of a
    double-quoted string: a backslash is dropped before the four characters
    it quotes, a backslash-newline pair disappears, anything else is kept. *)

Fixpoint unescape (s : string) : string :=
  match s with
  | EmptyString => EmptyString
  | String c s' =>
      if is_bslash c then
        match s' with
        | EmptyString => String c EmptyString
        | String d s'' =>
            if dq_escapable d then String d (unescape s'')
            else if is_newline d then unescape s''
            else String c (String d (unescape s''))
        end
      else String c (unescape s')
  end.

(** [dq_safe s]: [s] can stand between double quotes: no unquoted double
    quote, dollar or backquote, and no backslash left alone at the end. *)
Fixpoint dq_safe (s : string) : bool :=
  match s with
  | EmptyString => true
  | String c s' =>
      if is_bslash c then
        match s' with
        | EmptyString => false
        | String _ s'' => dq_safe s''
        end
      else negb (is_dquote c || is_dollar c || is_bquote c) && dq_safe s'
  end.

(** [inert s]: none of the four characters that are special between double
    quotes occurs in [s], which then denotes itself. *)
Definition inert (s : string) : bool := all_chars (fun c => negb (dq_escapable c)) s.

Definition one_line (s : string) : bool := all_chars (fun c => negb (is_newline c)) s.

(** A registry entry that is written the way the script expects: the path
    made of plain characters (it is used unquoted), the description free of
    shell-special characters and on one line. *)
Definition entry_ok (pkg : string * string) : bool :=
  all_chars is_plain (fst pkg) && inert (snd pkg) && one_line (snd pkg).

Fixpoint push_str (s : string) (r : lexres) : lexres :=
  match s with
  | EmptyString => r
  | String c s' => push c (push_str s' r)
  end.

Definition header_html (title : string) : string := unescape (header title).
Definition footer_html (licen : string) : string := unescape (footer licen).
Definition pkgheader_html (pkg : string * string) : string := unescape (pkgheader pkg).
Definition pkgitem_html (pkg : string * string) : string := unescape (pkgitem pkg).

Definition placeholder : string := "/src/target".
Definition pkgid (pkg : string * string) : string := "github.com/cpmech/gofem/" ++ fst pkg.
Definition link_url (pkg : string * string) : string :=
  "https://github.com/cpmech/gofem/blob/master/" ++ fst pkg.
Definition sed_script (pkg : string * string) : string :=
  "s@/src/target@https://github.com/cpmech/gofem/blob/master/" ++ fst pkg ++ "@g".
Definition sed_command (pkg : string * string) : string :=
  "sed -i -e 's@/src/target@https://github.com/cpmech/gofem/blob/master/"
    ++ fst pkg ++ "@g' " ++ pkgfile pkg ++ EmptyString.

(** The link-fixing step on a text. *)
Definition fix_links (pkg : string * string) (text : string) : string :=
  replace_all placeholder (link_url pkg) text.

(** The first line of the page body, written with the header. *)
Definition h1_line (pkg : string * string) : string :=
  "<h1>Gofem &ndash; <b>" ++ fst pkg ++ "</b> &ndash; " ++ snd pkg ++ "</h1>".

(** A per-package file before the link-fixing step. *)
Definition raw_page (godoc : string -> string) (licen : string) (pkg : string * string) : string :=
  pkgheader_html pkg ++ NL ++ godoc (pkgid pkg) ++ footer_html licen ++ NL.

Definition page (godoc : string -> string) (licen : string) (pkg : string * string) : string :=
  fix_links pkg (raw_page godoc licen pkg).

Definition index_head : string :=
  header_html "Gofem &ndash; Documentation" ++ NL ++
  "<h1>Gofem &ndash; Documentation</h1>" ++ NL ++
  "<h2 id=" ++ DQ ++ "pkg-index" ++ DQ ++ ">Index</h2>" ++ NL ++
  "<div id=" ++ DQ ++ "manual-nav" ++ DQ ++ ">" ++ NL ++
  "<dl>" ++ NL.

Fixpoint index_items (registry : list (string * string)) : string :=
  match registry with
  | [] => EmptyString
  | pkg :: rest => pkgitem_html pkg ++ NL ++ index_items rest
  end.

Definition index_tail (licen : string) : string :=
  "</dl>" ++ NL ++ "</div><!-- manual-nav -->" ++ NL ++ footer_html licen ++ NL.

Definition index_text (licen : string) (registry : list (string * string)) : string :=
  index_head ++ index_items registry ++ index_tail licen.

(** The files after a run: the index, and one page per entry (a later entry
    with the same flat name overwrites an earlier one). *)
Definition write_page godoc licen (fs : gmap string string) (pkg : string * string)
    : gmap string string :=
  <[pkgfile pkg := page godoc licen pkg]> fs.

Definition built godoc (licen : string) (registry : list (string * string))
    (fs : gmap string string) : gmap string string :=
  <[idxfn := index_text licen registry]> (fold_left (write_page godoc licen) registry fs).

(** ** Reading the generated text *)

(** The lines of a text, as Python's [split] on newline gives them. *)
Fixpoint lines (s : string) : list string :=
  match s with
  | EmptyString => [EmptyString]
  | String c s' =>
      if is_newline c then EmptyString :: lines s'
      else match lines s' with
           | l :: ls => String c l :: ls
           | [] => [String c EmptyString]
           end
  end.

Fixpoint drop_through (mark : string) (ls : list string) : list string :=
  match ls with
  | [] => []
  | l :: ls' => if String.eqb l mark then ls' else drop_through mark ls'
  end.

Fixpoint take_until (mark : string) (ls : list string) : list string :=
  match ls with
  | [] => []
  | l :: ls' => if String.eqb l mark then [] else l :: take_until mark ls'
  end.

(** The lines of the index between the opening [<dl>] and the closing
    [</dl>] of the list container. *)
Definition list_items (text : string) : list string :=
  take_until "</dl>" (drop_through "<dl>" (lines text)).

(** The text a browser shows for a fragment: what is outside the tags. *)
Fixpoint visible (in_tag : bool) (s : string) : string :=
  match s with
  | EmptyString => EmptyString
  | String c s' =>
      if in_tag then visible (negb (ascii_eqb_nat c 62)) s'
      else if ascii_eqb_nat c 60 then visible true s'
      else String c (visible false s')
  end.

(** The value of the first [href] attribute of a fragment. *)
Fixpoint up_to_quote (s : string) : string :=
  match s with
  | EmptyString => EmptyString
  | String c s' => if is_dquote c then EmptyString else String c (up_to_quote s')
  end.

Fixpoint href (s : string) : option string :=
  if String.prefix ("href=" ++ DQ) s then Some (up_to_quote (drop_str 6 s))
  else match s with
       | EmptyString => None
       | String _ s' => href s'
       end.

(** [clash p s]: [p] and [s] differ at a position that both have. *)
Fixpoint clash (p s : string) : bool :=
  match p, s with
  | String a p', String b s' => if Ascii.eqb a b then clash p' s' else true
  | _, _ => false
  end.

(** Every suffix of [s] that starts inside [s] clashes with [p]: [p] cannot
    start inside [s], whatever follows [s]. *)
Fixpoint clash_inside (p s : string) : bool :=
  match s with
  | EmptyString => true
  | String _ s' => clash p s && clash_inside p s'
  end.

Fixpoint map_str (f : ascii -> ascii) (s : string) : string :=
  match s with
  | EmptyString => EmptyString
  | String c s' => String (f c) (map_str f s')
  end.

Definition slash_to_dash (c : ascii) : ascii :=
  if Ascii.eqb c "/" then "-"%char else c.

Definition bslash_free (s : string) : bool := all_chars (fun c => negb (is_bslash c)) s.

(** One turn of the loop on the files, and the loop. *)
Definition loop_step godoc licen (fs : gmap string string) (pkg : string * string)
    : gmap string string :=
  append_file idxfn (pkgitem_html pkg ++ NL) (<[pkgfile pkg := page godoc licen pkg]> fs).

Definition no_at (s : string) : bool := all_chars (fun c => negb (Ascii.eqb c "@")) s.


(** The first and the last character of a text are not white space (for
    what [strip] returns). *)
Definition starts_with_space (s : string) : bool :=
  match s with
  | EmptyString => false
  | String c _ => py_space c
  end.

Fixpoint ends_with_space (s : string) : bool :=
  match s with
  | EmptyString => false
  | String c EmptyString => py_space c
  | String _ s' => ends_with_space s'
  end.

Definition all_space (s : string) : bool := all_chars py_space s.

(** [stable old new]: replacing [old] by [new] cannot bring [old] back.
    [old] is not empty, [new] starts with a character that [old] does not
    have, and [old] cannot start inside [new]. *)
Definition fresh_start (old new : string) : bool :=
  match new with
  | EmptyString => false
  | String h _ => negb (mem_char h old)
  end.

Definition stable (old new : string) : bool :=
  negb (String.eqb old EmptyString) && fresh_start old new && clash_inside old new.

(** The footer as it stands in a file, around the license text. *)
Definition footer_open : string :=
  NL ++
  "<div id=" ++ DQ ++ "footer" ++ DQ ++ ">" ++ NL ++
  "<br /><br />" ++ NL ++
  "<hr>" ++ NL ++
  "<pre class=" ++ DQ ++ "copyright" ++ DQ ++ ">" ++ NL.

Definition footer_close : string :=
  "</pre><!-- copyright -->" ++ NL ++
  "</div><!-- footer -->" ++ NL ++
  NL ++
  "</div><!-- container -->" ++ NL ++
  "</div><!-- page -->" ++ NL ++
  "</body>" ++ NL ++
  "</html>".

(** A small world to run the script in: a [LICENSE] file and nothing else,
    a documentation tool that prints a fixed fragment, silent tools. *)
Definition sample_world (licen : string) : World :=
  {| files := {["LICENSE" := licen]}; console := [] |}.

Definition sample_godoc (pkgname : string) : string :=
  "<h2>package " ++ pkgname ++ "</h2>" ++ NL ++
  "<a href=" ++ DQ ++ "/src/target/doc.go" ++ DQ ++ ">doc.go</a>" ++ NL.

Definition silent (command : string) (fs : gmap string string) : string * Z :=
  (EmptyString, 0%Z).

Definition ana : string * string := ("ana", "analytical solutions").

(** The offsets at which a block occurs in a text. *)
Definition positions (p s : string) : list nat :=
  List.filter (occurs_at p s) (seq 0 (S (String.length s))).

Definition dq_free (s : string) : bool := all_chars (fun c => negb (is_dquote c)) s.

Definition page_title (pkg : string * string) : string := "Gofem &ndash; package " ++ fst pkg.

(** What is checked, by computation, of the fixed texts around the tool
    output of a page: the header [hd], the header with the first line [top],
    the footer before ([fo]) and after ([fc]) the license text.  Each line
    states that a block cannot start or end at some place of the fixed text. *)
Definition wrap_checks (hd top fo fc : string) : bool :=
  String.prefix hd top &&
  clash_inside hd (drop_str 1 (top ++ NL)) &&
  forallb (fun t => clash (drop_str t hd) fo) (seq 1 (String.length hd - 2)) &&
  clash_inside hd fo &&
  negb (dq_free hd) &&
  clash_inside fo top &&
  forallb (fun t => clash (drop_str t fo) fo) (seq 1 (String.length fo - 10)) &&
  forallb (fun t => clash (drop_str t fc) fo) (seq 0 (String.length fc - 1)) &&
  String.prefix (String.substring 0 9 fo ++ DQ) fo &&
  dq_free fc &&
  Nat.leb 10 (String.length fc) && Nat.leb 10 (String.length fo) &&
  String.prefix NL fo && Nat.leb 2 (String.length hd) &&
  clash fo (drop_str 1 fo).

(** A documentation tool whose output is the header of the page of [ana]
    less its final line break. *)
Definition echoing_godoc (pkgname : string) : string :=
  let hd := header_html (page_title ana) in
  String.substring 0 (String.length hd - 1) hd.

(** A license text with a quoted phrase, as the BSD licenses have. *)
Definition quoted_license : string :=
  "THIS SOFTWARE IS PROVIDED " ++ DQ ++ "AS IS" ++ DQ ++ " AND WITHOUT WARRANTY".

(** A world without any file. *)
Definition empty_world : World := {| files := ∅; console := [] |}.

(** A command line of the script, without its redirection, and a tool whose
    diagnostics start with blanks. *)
Definition godoc_ana : string := "godoc -html github.com/cpmech/gofem/ana".

Definition indented_report (command : string) (fs : gmap string string) : string * Z :=
  ("  godoc: warning" ++ NL, 1%Z).

(** A page as the loop leaves it: the header and the first line [top], the
    tool output [body], and the footer, which is the license text between
    [fo] and [fc]. *)
Definition wrapped_footer (fo licen fc : string) : string := fo ++ licen ++ fc.

Definition wrapped_text (top body fo licen fc : string) : string :=
  top ++ NL ++ body ++ wrapped_footer fo licen fc ++ NL.

(** Two entries whose paths differ and whose flat names are the same. *)
Definition slashed : string * string := ("a/b", "first").
Definition dashed : string * string := ("a-b", "second").

(** A world where the files of an earlier run are still there. *)
Definition stale_world (licen : string) : World :=
  {| files := <["doc/index.html" := "old index"]>
                (<["doc/xxana.html" := "old page"]> {["LICENSE" := licen]});
     console := ["earlier output"] |}.

(** A world with a page that holds one link to the placeholder. *)
Definition linked_world : World :=
  {| files := {["doc/xxana.html" := "<a href=" ++ DQ ++ "/src/target/doc.go" ++ DQ ++ ">"]};
     console := [] |}.

(** ** The footer for any license text

    The footer goes to the files through [echo] with the license text
    standing unquoted between the double quotes of the command line.
    [echoed body] is what [echo "<body>"] prints when the shell reads the
    line as [echo] followed by words and nothing else ([None] otherwise: a
    redirection, a syntax error, or a line outside the fragment). *)
Fixpoint words_of (ts : list token) : option (list string) :=
  match ts with
  | [] => Some []
  | Word w :: ts' =>
      match words_of ts' with
      | Some ws => Some (w :: ws)
      | None => None
      end
  | _ => None
  end.

Definition echoed (body : string) : option string :=
  match lex InDq (body ++ DQ) with
  | Toks ts =>
      match words_of ts with
      | Some args => if echo_args_ok args then Some (echo_out args) else None
      | None => None
      end
  | _ => None
  end.

(** The files after a run, given the text [ftxt] that the footer commands
    append. *)
Definition page_with (godoc : string -> string) (ftxt : string) (pkg : string * string)
    : string :=
  fix_links pkg (pkgheader_html pkg ++ NL ++ godoc (pkgid pkg) ++ ftxt).

Definition index_with (ftxt : string) (registry : list (string * string)) : string :=
  index_head ++ index_items registry ++
  "</dl>" ++ NL ++ "</div><!-- manual-nav -->" ++ NL ++ ftxt.

Definition write_page_with godoc ftxt (fs : gmap string string) (pkg : string * string)
    : gmap string string :=
  <[pkgfile pkg := page_with godoc ftxt pkg]> fs.

Definition loop_step_with godoc ftxt (fs : gmap string string) (pkg : string * string)
    : gmap string string :=
  append_file idxfn (pkgitem_html pkg ++ NL) (<[pkgfile pkg := page_with godoc ftxt pkg]> fs).

Definition built_with godoc (ftxt : string) (registry : list (string * string))
    (fs : gmap string string) : gmap string string :=
  <[idxfn := index_with ftxt registry]> (fold_left (write_page_with godoc ftxt) registry fs).

(** The text that the footer commands append for a license text. *)
Definition landed_footer (licen : string) : string :=
  default EmptyString (echoed (footer licen)).

(** A license text that closes the quotes of the command line, redirects
    the output to the index and opens the quotes again. *)
Definition redirecting_license : string := DQ ++ " > doc/index.html " ++ DQ.

(** * Verification *)

(** ** Strings *)

Lemma sapp_assoc (a b c : string) : (a ++ b) ++ c = a ++ b ++ c.
Proof. induction a as [|x a IH]; simpl; [reflexivity | now rewrite IH]. Qed.

Lemma sapp_nil_r (a : string) : a ++ EmptyString = a.
Proof. induction a as [|x a IH]; simpl; [reflexivity | now rewrite IH]. Qed.

Lemma length_sapp (a b : string) :
  String.length (a ++ b) = String.length a + String.length b.
Proof. induction a as [|x a IH]; simpl; [reflexivity | now rewrite IH]. Qed.

Lemma all_chars_app f (a b : string) :
  all_chars f (a ++ b) = all_chars f a && all_chars f b.
Proof.
  induction a as [|x a IH]; simpl; [reflexivity|].
  rewrite IH. now rewrite andb_assoc.
Qed.

Lemma all_chars_impl (f g : ascii -> bool) (s : string) :
  (forall c, f c = true -> g c = true) ->
  all_chars f s = true -> all_chars g s = true.
Proof.
  intros Hfg. induction s as [|x s IH]; simpl; [reflexivity|].
  intros [Hx Hs]%andb_true_iff. rewrite (Hfg _ Hx). simpl. auto.
Qed.

Lemma prefix_app (p t : string) : String.prefix p (p ++ t) = true.
Proof.
  induction p as [|a p IH]; simpl; [now destruct t|].
  destruct (ascii_dec a a); [exact IH | congruence].
Qed.

Lemma prefix_true_split (p s : string) :
  String.prefix p s = true -> s = p ++ drop_str (String.length p) s.
Proof.
  revert s. induction p as [|a p IH]; intros s H.
  - reflexivity.
  - destruct s as [|b s]; simpl in H; [discriminate|].
    destruct (ascii_dec a b) as [->|]; [|discriminate].
    simpl. f_equal. now apply IH.
Qed.

Lemma drop_str_app (a b : string) : drop_str (String.length a) (a ++ b) = b.
Proof. induction a as [|x a IH]; simpl; [now destruct b | exact IH]. Qed.

Lemma drop_str_length_le (n : nat) (s : string) :
  String.length (drop_str n s) <= String.length s.
Proof.
  revert s. induction n as [|n IH]; intros [|c s]; simpl; try lia.
  specialize (IH s). lia.
Qed.

(** ** Character classes *)

Ltac by_cases_on_char c :=
  destruct c as [[] [] [] [] [] [] [] []]; vm_compute; intuition congruence.

Lemma plain_char_facts (c : ascii) :
  is_plain c = true ->
  is_blank c = false /\ is_dquote c = false /\ is_squote c = false /\
  is_gt c = false /\ dq_escapable c = false /\ is_bslash c = false /\
  is_newline c = false /\ sed_replacement_char c = true /\
  Ascii.eqb c "@" = false.
Proof. by_cases_on_char c. Qed.

Lemma inert_char_facts (c : ascii) :
  dq_escapable c = false ->
  is_dquote c = false /\ is_bslash c = false /\ is_dollar c = false /\ is_bquote c = false.
Proof. by_cases_on_char c. Qed.

Lemma plain_inert (s : string) : all_chars is_plain s = true -> inert s = true.
Proof.
  apply all_chars_impl. intros c H.
  destruct (plain_char_facts c H) as (_ & _ & _ & _ & -> & _). reflexivity.
Qed.

(** ** Lexing *)

Lemma push_str_word (s v : string) (ts : list token) :
  push_str s (Toks (Word v :: ts)) = Toks (Word (s ++ v) :: ts).
Proof. induction s as [|c s IH]; simpl; [reflexivity | now rewrite IH]. Qed.

Lemma push_str_app (a b : string) (r : lexres) :
  push_str (a ++ b) r = push_str a (push_str b r).
Proof. induction a as [|c a IH]; simpl; [reflexivity | now rewrite IH]. Qed.

Lemma lex_word_plain (w rest : string) :
  all_chars is_plain w = true ->
  lex InWord (w ++ rest) = push_str w (lex InWord rest).
Proof.
  induction w as [|c w IH]; simpl; [reflexivity|].
  intros [Hc Hw]%andb_true_iff.
  destruct (plain_char_facts c Hc) as (-> & -> & -> & _).
  rewrite Hc. now rewrite IH.
Qed.

Lemma lex_blank_plain (w rest : string) :
  all_chars is_plain w = true -> w <> EmptyString ->
  lex Blank (w ++ rest) = push_str w (lex InWord rest).
Proof.
  destruct w as [|c w]; [congruence|]. simpl.
  intros [Hc Hw]%andb_true_iff _.
  destruct (plain_char_facts c Hc) as (-> & -> & -> & -> & _).
  rewrite Hc. now rewrite lex_word_plain.
Qed.

Lemma lex_sq_body (b rest : string) :
  all_chars (fun c => negb (is_squote c)) b = true ->
  lex InSq (b ++ rest) = push_str b (lex InSq rest).
Proof.
  induction b as [|c b IH]; simpl; [reflexivity|].
  intros [Hc Hb]%andb_true_iff.
  apply negb_true_iff in Hc. rewrite Hc. now rewrite IH.
Qed.

Lemma lex_dq_cons (c : ascii) (s : string) :
  is_bslash c = false -> is_dquote c || is_dollar c || is_bquote c = false ->
  lex InDq (String c s) = push c (lex InDq s).
Proof.
  intros Hb H. apply orb_false_iff in H as [[H1 H2]%orb_false_iff H3].
  simpl. now rewrite H1, Hb, H2, H3.
Qed.

Lemma lex_dq_bslash (c d : ascii) (s : string) :
  is_bslash c = true ->
  lex InDq (String c (String d s)) =
    if dq_escapable d then push d (lex InDq s)
    else if is_newline d then lex InDq s
    else push c (push d (lex InDq s)).
Proof.
  intros Hb. simpl. rewrite Hb.
  assert (is_dquote c = false) as -> by (revert Hb; by_cases_on_char c).
  reflexivity.
Qed.

Lemma lex_dq_body_aux (b : string) :
  (forall rest, dq_safe b = true ->
     lex InDq (b ++ rest) = push_str (unescape b) (lex InDq rest)) /\
  (forall c rest, dq_safe (String c b) = true ->
     lex InDq (String c b ++ rest) = push_str (unescape (String c b)) (lex InDq rest)).
Proof.
  induction b as [|d b [IH1 IH2]].
  - split; [reflexivity|].
    intros c rest. cbn [dq_safe].
    destruct (is_bslash c) eqn:Hb; [discriminate|].
    rewrite andb_true_r. intros H%negb_true_iff.
    change (String c EmptyString ++ rest) with (String c rest).
    rewrite (lex_dq_cons c rest Hb H). simpl. now rewrite Hb.
  - split; [exact (IH2 d)|].
    intros c rest H.
    change (String c (String d b) ++ rest) with (String c (String d (b ++ rest))).
    cbn [dq_safe] in H. cbn [unescape].
    destruct (is_bslash c) eqn:Hb.
    + rewrite (lex_dq_bslash c d _ Hb), (IH1 rest H).
      destruct (dq_escapable d); [reflexivity|].
      destruct (is_newline d); reflexivity.
    + apply andb_true_iff in H as [H Hs].
      apply negb_true_iff in H.
      rewrite (lex_dq_cons c _ Hb H).
      change (String d (b ++ rest)) with (String d b ++ rest).
      rewrite (IH2 d rest Hs). reflexivity.
Qed.

Lemma lex_dq_body (b rest : string) :
  dq_safe b = true ->
  lex InDq (b ++ rest) = push_str (unescape b) (lex InDq rest).
Proof. apply lex_dq_body_aux. Qed.

Lemma dq_safe_cons (c : ascii) (s : string) :
  is_bslash c = false ->
  dq_safe (String c s) = negb (is_dquote c || is_dollar c || is_bquote c) && dq_safe s.
Proof. intros H. simpl. now rewrite H. Qed.

Lemma dq_safe_bslash (c d : ascii) (s : string) :
  is_bslash c = true -> dq_safe (String c (String d s)) = dq_safe s.
Proof. intros H. simpl. now rewrite H. Qed.

Lemma unescape_cons (c : ascii) (s : string) :
  is_bslash c = false -> unescape (String c s) = String c (unescape s).
Proof. intros H. simpl. now rewrite H. Qed.

Lemma unescape_bslash (c d : ascii) (s : string) :
  is_bslash c = true ->
  unescape (String c (String d s)) =
    if dq_escapable d then String d (unescape s)
    else if is_newline d then unescape s
    else String c (String d (unescape s)).
Proof. intros H. simpl. now rewrite H. Qed.

Lemma dq_app_aux (a : string) :
  (forall b, dq_safe a = true ->
     dq_safe (a ++ b) = dq_safe b /\ unescape (a ++ b) = unescape a ++ unescape b) /\
  (forall c b, dq_safe (String c a) = true ->
     dq_safe (String c a ++ b) = dq_safe b /\
     unescape (String c a ++ b) = unescape (String c a) ++ unescape b).
Proof.
  induction a as [|d a [IH1 IH2]].
  - split; [now split|].
    intros c b H.
    change (String c EmptyString ++ b) with (String c b).
    destruct (is_bslash c) eqn:Hb; [simpl in H; now rewrite Hb in H|].
    rewrite (dq_safe_cons c EmptyString Hb) in H.
    rewrite (dq_safe_cons c b Hb), (unescape_cons c b Hb), (unescape_cons c EmptyString Hb).
    apply andb_true_iff in H as [-> _]. now split.
  - split; [exact (IH2 d)|].
    intros c b H.
    change (String c (String d a) ++ b) with (String c (String d (a ++ b))).
    destruct (is_bslash c) eqn:Hb.
    + rewrite (dq_safe_bslash c d a Hb) in H.
      rewrite (dq_safe_bslash c d (a ++ b) Hb).
      rewrite (unescape_bslash c d a Hb), (unescape_bslash c d (a ++ b) Hb).
      destruct (IH1 b H) as [-> ->]. split; [reflexivity|].
      destruct (dq_escapable d); [reflexivity|].
      destruct (is_newline d); reflexivity.
    + rewrite (dq_safe_cons c (String d a) Hb) in H.
      rewrite (dq_safe_cons c (String d (a ++ b)) Hb).
      rewrite (unescape_cons c (String d a) Hb), (unescape_cons c (String d (a ++ b)) Hb).
      apply andb_true_iff in H as [-> Hs].
      change (String d (a ++ b)) with (String d a ++ b).
      destruct (IH2 d b Hs) as [-> ->]. now split.
Qed.

Lemma dq_safe_app (a b : string) :
  dq_safe a = true -> dq_safe (a ++ b) = dq_safe b.
Proof. intros H. now apply dq_app_aux. Qed.

Lemma unescape_app (a b : string) :
  dq_safe a = true -> unescape (a ++ b) = unescape a ++ unescape b.
Proof. intros H. now apply dq_app_aux. Qed.

Lemma inert_app (a b : string) : inert (a ++ b) = inert a && inert b.
Proof. apply all_chars_app. Qed.

Lemma inert_dq (s : string) :
  inert s = true -> dq_safe s = true /\ unescape s = s.
Proof.
  induction s as [|c s IH]; [now split|].
  cbn [inert all_chars]. intros [Hc Hs]%andb_true_iff.
  apply negb_true_iff in Hc.
  destruct (inert_char_facts c Hc) as (H1 & H2 & H3 & H4).
  destruct (IH Hs) as [IHa IHb].
  cbn [dq_safe unescape]. rewrite H1, H2, H3, H4, IHa, IHb. now split.
Qed.

Lemma inert_safe (s : string) : inert s = true -> dq_safe s = true.
Proof. intros H. now apply inert_dq. Qed.

Lemma inert_unescape (s : string) : inert s = true -> unescape s = s.
Proof. intros H. now apply inert_dq. Qed.

Lemma echo_portable_app (a b : string) :
  echo_portable a = true -> echo_portable (a ++ b) = echo_portable b.
Proof.
  induction a as [|c a IH]; [reflexivity|].
  change (String c a ++ b) with (String c (a ++ b)). cbn [echo_portable].
  destruct (is_bslash c).
  - destruct a as [|d a]; [discriminate|].
    change (String d a ++ b) with (String d (a ++ b)) in *.
    intros [Hd Ha]%andb_true_iff. rewrite Hd. simpl andb. now apply IH.
  - exact IH.
Qed.

Lemma inert_echo_portable (s : string) : inert s = true -> echo_portable s = true.
Proof.
  induction s as [|c s IH]; [reflexivity|].
  cbn [inert all_chars]. intros [Hc Hs]%andb_true_iff.
  apply negb_true_iff in Hc.
  destruct (inert_char_facts c Hc) as (_ & H2 & _).
  cbn [echo_portable]. rewrite H2. now apply IH.
Qed.

(** ** The texts of the script between double quotes *)

Ltac expose_template :=
  unfold header, footer, BQ, BSL, DQ, NL; simpl.

Lemma header_safe (title : string) :
  inert title = true -> dq_safe (header title) = true.
Proof.
  intros H. expose_template.
  rewrite (dq_safe_app _ _ (inert_safe _ H)). reflexivity.
Qed.

Lemma header_html_portable (title : string) :
  inert title = true -> echo_portable (header_html title) = true.
Proof.
  intros H. unfold header_html. expose_template.
  rewrite (unescape_app _ _ (inert_safe _ H)), (inert_unescape _ H).
  rewrite (echo_portable_app _ _ (inert_echo_portable _ H)). reflexivity.
Qed.

Lemma footer_safe (licen : string) :
  inert licen = true -> dq_safe (footer licen) = true.
Proof.
  intros H. expose_template.
  rewrite (dq_safe_app _ _ (inert_safe _ H)). reflexivity.
Qed.

Lemma footer_html_portable (licen : string) :
  inert licen = true -> echo_portable (footer_html licen) = true.
Proof.
  intros H. unfold footer_html. expose_template.
  rewrite (unescape_app _ _ (inert_safe _ H)), (inert_unescape _ H).
  rewrite (echo_portable_app _ _ (inert_echo_portable _ H)). reflexivity.
Qed.

(** ** Command lines *)

Lemma lex_blank_word (f : string) :
  all_chars is_plain f = true -> f <> EmptyString -> lex Blank f = Toks [Word f].
Proof.
  intros Hp Hne. rewrite <- (sapp_nil_r f) at 1.
  rewrite (lex_blank_plain _ _ Hp Hne). simpl lex.
  now rewrite push_str_word, sapp_nil_r.
Qed.

Lemma lex_echo_head (r : string) :
  lex Blank ("echo " ++ DQ ++ r) =
    push_str "echo" (emit (Word EmptyString) (lex InDq r)).
Proof. reflexivity. Qed.

Lemma lex_dq_close (r : string) : lex InDq (DQ ++ r) = lex InWord r.
Proof. reflexivity. Qed.

Lemma lex_create_tail (f : string) :
  lex InWord (" > " ++ f) = emit (Word EmptyString) (emit Gt (lex Blank f)).
Proof. reflexivity. Qed.

Lemma lex_append_tail (f : string) :
  lex InWord (" >> " ++ f) = emit (Word EmptyString) (emit GtGt (lex Blank f)).
Proof. reflexivity. Qed.

Lemma lex_echo_create (body f : string) :
  dq_safe body = true -> all_chars is_plain f = true -> f <> EmptyString ->
  lex Blank ("echo " ++ DQ ++ body ++ DQ ++ " > " ++ f) =
    Toks [Word "echo"; Word (unescape body); Gt; Word f].
Proof.
  intros Hb Hf Hne.
  rewrite lex_echo_head, (lex_dq_body _ _ Hb), lex_dq_close, lex_create_tail.
  rewrite (lex_blank_word _ Hf Hne). cbn [emit].
  rewrite push_str_word, sapp_nil_r. reflexivity.
Qed.

Lemma lex_echo_append (body f : string) :
  dq_safe body = true -> all_chars is_plain f = true -> f <> EmptyString ->
  lex Blank ("echo " ++ DQ ++ body ++ DQ ++ " >> " ++ f) =
    Toks [Word "echo"; Word (unescape body); GtGt; Word f].
Proof.
  intros Hb Hf Hne.
  rewrite lex_echo_head, (lex_dq_body _ _ Hb), lex_dq_close, lex_append_tail.
  rewrite (lex_blank_word _ Hf Hne). cbn [emit].
  rewrite push_str_word, sapp_nil_r. reflexivity.
Qed.

Lemma lex_word_blank (r : string) :
  lex InWord (" " ++ r) = emit (Word EmptyString) (lex Blank r).
Proof. reflexivity. Qed.

Lemma lex_sq_open (r : string) : lex Blank ("'" ++ r) = lex InSq r.
Proof. reflexivity. Qed.

Lemma lex_sq_close (r : string) : lex InSq ("'" ++ r) = lex InWord r.
Proof. reflexivity. Qed.

Ltac collect_words :=
  repeat (rewrite push_str_word; cbn [emit]); rewrite ?sapp_nil_r.

Lemma lex_godoc (path f : string) :
  all_chars is_plain path = true -> all_chars is_plain f = true -> f <> EmptyString ->
  lex Blank ("godoc -html github.com/cpmech/gofem/" ++ path ++ " >> " ++ f) =
    Toks [Word "godoc"; Word "-html"; Word ("github.com/cpmech/gofem/" ++ path);
          GtGt; Word f].
Proof.
  intros Hp Hf Hne.
  assert (Hid : all_chars is_plain ("github.com/cpmech/gofem/" ++ path) = true).
  { rewrite all_chars_app, Hp. reflexivity. }
  assert (E : "godoc -html github.com/cpmech/gofem/" ++ path ++ " >> " ++ f =
              "godoc" ++ " " ++ "-html" ++ " " ++
              ("github.com/cpmech/gofem/" ++ path) ++ " >> " ++ f).
  { rewrite (sapp_assoc "github.com/cpmech/gofem/"). reflexivity. }
  rewrite E.
  rewrite (lex_blank_plain "godoc") by (reflexivity || discriminate).
  rewrite lex_word_blank.
  rewrite (lex_blank_plain "-html") by (reflexivity || discriminate).
  rewrite lex_word_blank.
  rewrite (lex_blank_plain _ _ Hid) by discriminate.
  rewrite lex_append_tail, (lex_blank_word _ Hf Hne). cbn [emit].
  collect_words. reflexivity.
Qed.

Lemma sed_script_unquoted (pkg : string * string) :
  all_chars is_plain (fst pkg) = true ->
  all_chars (fun c => negb (is_squote c)) (sed_script pkg) = true.
Proof.
  intros Hp. unfold sed_script. rewrite !all_chars_app.
  apply andb_true_iff; split; [reflexivity|].
  apply andb_true_iff; split; [|reflexivity].
  revert Hp. apply all_chars_impl. intros c Hc.
  destruct (plain_char_facts c Hc) as (_ & _ & -> & _). reflexivity.
Qed.

Lemma sed_command_words (pkg : string * string) :
  sed_command pkg =
    "sed" ++ " " ++ "-i" ++ " " ++ "-e" ++ " " ++ "'" ++ sed_script pkg ++ "'" ++ " " ++ pkgfile pkg.
Proof.
  unfold sed_command, sed_script.
  rewrite sapp_nil_r, !sapp_assoc. reflexivity.
Qed.

Lemma lex_sed (pkg : string * string) :
  all_chars is_plain (fst pkg) = true ->
  all_chars is_plain (pkgfile pkg) = true -> pkgfile pkg <> EmptyString ->
  lex Blank (sed_command pkg) =
    Toks [Word "sed"; Word "-i"; Word "-e"; Word (sed_script pkg); Word (pkgfile pkg)].
Proof.
  intros Hp Hf Hne. rewrite sed_command_words.
  rewrite (lex_blank_plain "sed") by (reflexivity || discriminate).
  rewrite lex_word_blank.
  rewrite (lex_blank_plain "-i") by (reflexivity || discriminate).
  rewrite lex_word_blank.
  rewrite (lex_blank_plain "-e") by (reflexivity || discriminate).
  rewrite lex_word_blank, lex_sq_open.
  rewrite (lex_sq_body _ _ (sed_script_unquoted pkg Hp)).
  rewrite lex_sq_close, lex_word_blank, (lex_blank_word _ Hf Hne). cbn [emit].
  collect_words. reflexivity.
Qed.

Lemma plain_no_at (s : string) : all_chars is_plain s = true -> no_at s = true.
Proof.
  apply all_chars_impl. intros c Hc.
  now destruct (plain_char_facts c Hc) as (_ & _ & _ & _ & _ & _ & _ & _ & ->).
Qed.

Lemma plain_sed_replacement (s : string) :
  all_chars is_plain s = true -> all_chars sed_replacement_char s = true.
Proof.
  apply all_chars_impl. intros c Hc.
  now destruct (plain_char_facts c Hc) as (_ & _ & _ & _ & _ & _ & _ & -> & _).
Qed.

Lemma split_at_free (w rest : string) :
  no_at w = true -> split_at "@" (w ++ String "@" rest) = Some (w, rest).
Proof.
  unfold no_at. induction w as [|c w IH]; [reflexivity|].
  cbn [all_chars]. intros [Hc Hw]%andb_true_iff.
  change (String c w ++ String "@" rest) with (String c (w ++ String "@" rest)).
  cbn [split_at]. apply negb_true_iff in Hc. rewrite Hc.
  now rewrite (IH Hw).
Qed.

Lemma parse_sed_literal (p r : string) :
  no_at p = true -> p <> EmptyString -> all_chars sed_pattern_char p = true ->
  no_at r = true -> all_chars sed_replacement_char r = true ->
  parse_sed ("s@" ++ p ++ String "@" (r ++ String "@" "g")) = Some (p, r).
Proof.
  intros Hp Hne Hpat Hr Hrep.
  change ("s@" ++ p ++ String "@" (r ++ String "@" "g"))
    with (String "s" (String "@" (p ++ String "@" (r ++ String "@" "g")))).
  cbn [parse_sed].
  replace (ascii_eqb_nat "s" 115 &&
           negb (is_plain "@" || is_blank "@" || is_bslash "@" || is_newline "@"))
    with true by reflexivity.
  rewrite (split_at_free _ _ Hp).
  destruct p as [|p0 p']; [congruence|].
  rewrite (split_at_free _ _ Hr), Hpat, Hrep. reflexivity.
Qed.

Lemma parse_sed_script (pkg : string * string) :
  all_chars is_plain (fst pkg) = true ->
  parse_sed (sed_script pkg) = Some (placeholder, link_url pkg).
Proof.
  intros Hp.
  assert (E : sed_script pkg =
              "s@" ++ placeholder ++ String "@" (link_url pkg ++ String "@" "g")).
  { unfold sed_script, link_url, placeholder. rewrite sapp_assoc. reflexivity. }
  rewrite E. apply parse_sed_literal; try reflexivity; try discriminate.
  - unfold link_url, no_at. rewrite all_chars_app.
    apply andb_true_iff; split; [reflexivity | now apply plain_no_at].
  - unfold link_url. rewrite all_chars_app.
    apply andb_true_iff; split; [reflexivity | now apply plain_sed_replacement].
Qed.

(** ** The shell on the command lines of the script *)

Section ShellRuns.

Variable godoc : string -> string.
Variable report : string -> gmap string string -> string * Z.

Lemma sh_tokens (command : string) (ts : list token) (c : simple_cmd)
    (fs : gmap string string) :
  lex Blank command = Toks ts -> parse_cmd ts = Some c ->
  option_map p_files (sh godoc report command fs) =
    option_map snd (run_simple godoc c fs).
Proof.
  intros Hl Hp. unfold sh. rewrite Hl, Hp.
  destruct (run_simple godoc c fs) as [[out fs']|]; reflexivity.
Qed.

Lemma append_after_create (f out : string) (fs : gmap string string) :
  append_file f out (<[f := EmptyString]> fs) = <[f := out]> fs.
Proof.
  unfold append_file. rewrite lookup_insert_eq. simpl.
  apply insert_insert_eq.
Qed.

Lemma append_after_open (f out : string) (fs : gmap string string) :
  append_file f out (open_redir fs (true, f)) = append_file f out fs.
Proof.
  unfold open_redir. destruct (fs !! f) as [t|] eqn:E; [reflexivity|].
  rewrite append_after_create. unfold append_file. now rewrite E.
Qed.

Lemma sh_echo_create (body f : string) (fs : gmap string string) :
  dq_safe body = true -> echo_args_ok [unescape body] = true ->
  all_chars is_plain f = true -> f <> EmptyString ->
  option_map p_files (sh godoc report ("echo " ++ DQ ++ body ++ DQ ++ " > " ++ f) fs) =
    Some (<[f := unescape body ++ NL]> fs).
Proof.
  intros Hb He Hf Hne.
  rewrite (sh_tokens _ _ {| argv := ["echo"; unescape body]; redirs := [(false, f)] |}
             fs (lex_echo_create _ _ Hb Hf Hne) eq_refl).
  unfold run_simple. cbn [argv redirs fold_left last].
  cbn [run_prog]. rewrite He. cbn [option_map snd open_redir].
  now rewrite append_after_create.
Qed.

Lemma sh_echo_append (body f : string) (fs : gmap string string) :
  dq_safe body = true -> echo_args_ok [unescape body] = true ->
  all_chars is_plain f = true -> f <> EmptyString ->
  option_map p_files (sh godoc report ("echo " ++ DQ ++ body ++ DQ ++ " >> " ++ f) fs) =
    Some (append_file f (unescape body ++ NL) fs).
Proof.
  intros Hb He Hf Hne.
  rewrite (sh_tokens _ _ {| argv := ["echo"; unescape body]; redirs := [(true, f)] |}
             fs (lex_echo_append _ _ Hb Hf Hne) eq_refl).
  unfold run_simple. cbn [argv redirs fold_left last].
  cbn [run_prog]. rewrite He. cbn [option_map snd].
  now rewrite append_after_open.
Qed.

Lemma sh_godoc (pkg : string * string) (fs : gmap string string) :
  all_chars is_plain (fst pkg) = true ->
  all_chars is_plain (pkgfile pkg) = true -> pkgfile pkg <> EmptyString ->
  option_map p_files
    (sh godoc report ("godoc -html github.com/cpmech/gofem/" ++ fst pkg ++ " >> " ++ pkgfile pkg) fs) =
    Some (append_file (pkgfile pkg) (godoc (pkgid pkg)) fs).
Proof.
  intros Hp Hf Hne.
  rewrite (sh_tokens _ _ {| argv := ["godoc"; "-html"; pkgid pkg];
                            redirs := [(true, pkgfile pkg)] |}
             fs (lex_godoc _ _ Hp Hf Hne) eq_refl).
  unfold run_simple. cbn [argv redirs fold_left last run_prog option_map snd].
  now rewrite append_after_open.
Qed.

Lemma sh_sed (pkg : string * string) (fs : gmap string string) :
  all_chars is_plain (fst pkg) = true ->
  all_chars is_plain (pkgfile pkg) = true -> pkgfile pkg <> EmptyString ->
  option_map p_files (sh godoc report (sed_command pkg) fs) =
    Some (match fs !! pkgfile pkg with
          | Some text => <[pkgfile pkg := fix_links pkg text]> fs
          | None => fs
          end).
Proof.
  intros Hp Hf Hne.
  rewrite (sh_tokens _ _ {| argv := ["sed"; "-i"; "-e"; sed_script pkg; pkgfile pkg];
                            redirs := [] |}
             fs (lex_sed _ Hp Hf Hne) eq_refl).
  unfold run_simple. cbn [argv redirs fold_left last run_prog].
  rewrite (parse_sed_script _ Hp).
  destruct (fs !! pkgfile pkg); reflexivity.
Qed.

End ShellRuns.

(** ** The flat file name *)

Lemma flatName_map (path : string) : flatName path = map_str slash_to_dash path.
Proof.
  unfold flatName, str_replace, replace_all.
  induction path as [|c p IH]; [reflexivity|].
  cbn [replace_from map_str String.prefix].
  unfold slash_to_dash at 1.
  destruct (ascii_dec "/" c) as [<-|Hne].
  - replace (String.prefix EmptyString p) with true by now destruct p.
    simpl. now rewrite IH.
  - replace (Ascii.eqb c "/") with false
      by (symmetry; apply Ascii.eqb_neq; congruence).
    now rewrite IH.
Qed.

Lemma flatName_plain (path : string) :
  all_chars is_plain path = true -> all_chars is_plain (flatName path) = true.
Proof.
  rewrite flatName_map. induction path as [|c p IH]; [reflexivity|].
  cbn [all_chars map_str]. intros [Hc Hp]%andb_true_iff.
  rewrite (IH Hp), andb_true_r. unfold slash_to_dash.
  destruct (Ascii.eqb c "/"); [reflexivity | exact Hc].
Qed.

Lemma pkgfile_plain (pkg : string * string) :
  all_chars is_plain (fst pkg) = true -> all_chars is_plain (pkgfile pkg) = true.
Proof.
  intros H. unfold pkgfile, odir. rewrite !all_chars_app, (flatName_plain _ H).
  reflexivity.
Qed.

Lemma pkgfile_nonempty (pkg : string * string) : pkgfile pkg <> EmptyString.
Proof. discriminate. Qed.

Lemma pkgfile_not_index (pkg : string * string) : pkgfile pkg <> idxfn.
Proof. unfold pkgfile, idxfn, odir. simpl. congruence. Qed.

Lemma pkgfile_not_license (pkg : string * string) : pkgfile pkg <> "LICENSE".
Proof. discriminate. Qed.

(** ** The quoted texts of an entry *)

Lemma entry_ok_parts (pkg : string * string) :
  entry_ok pkg = true ->
  all_chars is_plain (fst pkg) = true /\ inert (fst pkg) = true /\
  inert (snd pkg) = true /\ one_line (snd pkg) = true.
Proof.
  unfold entry_ok. intros [[H1 H2]%andb_true_iff H3]%andb_true_iff.
  auto using plain_inert.
Qed.

Lemma inert_bslash_free (s : string) : inert s = true -> bslash_free s = true.
Proof.
  apply all_chars_impl. intros c Hc. apply negb_true_iff in Hc.
  now destruct (inert_char_facts c Hc) as (_ & -> & _).
Qed.

Lemma bslash_free_portable (s : string) : bslash_free s = true -> echo_portable s = true.
Proof.
  induction s as [|c s IH]; [reflexivity|].
  cbn [bslash_free all_chars]. intros [Hc Hs]%andb_true_iff.
  apply negb_true_iff in Hc. cbn [echo_portable]. rewrite Hc. now apply IH.
Qed.

Lemma echo_args_single (s : string) :
  echo_portable s = true -> String.prefix "-" s = false -> echo_args_ok [s] = true.
Proof.
  intros Hp Hd. destruct s as [|c s]; [reflexivity|].
  cbn [echo_args_ok forallb]. rewrite Hp.
  simpl in Hd. destruct (ascii_dec "-" c) as [<-|Hne].
  - now destruct s.
  - replace (ascii_eqb_nat c 45) with false; [reflexivity|].
    symmetry. apply Nat.eqb_neq. intros E. apply Hne.
    rewrite <- (ascii_nat_embedding c), E. reflexivity.
Qed.

Lemma h1_line_inert (pkg : string * string) :
  entry_ok pkg = true -> inert (h1_line pkg) = true.
Proof.
  intros (_ & Hp & Hd & _)%entry_ok_parts. unfold h1_line.
  rewrite !inert_app, Hp, Hd. reflexivity.
Qed.

Lemma title_inert (pkg : string * string) :
  entry_ok pkg = true -> inert ("Gofem &ndash; package " ++ fst pkg) = true.
Proof.
  intros (_ & Hp & _)%entry_ok_parts. rewrite inert_app, Hp. reflexivity.
Qed.

Lemma pkgheader_safe (pkg : string * string) :
  entry_ok pkg = true -> dq_safe (pkgheader pkg) = true.
Proof.
  intros H. unfold pkgheader.
  rewrite (dq_safe_app _ _ (header_safe _ (title_inert _ H))).
  apply inert_safe. exact (h1_line_inert _ H).
Qed.

Lemma pkgheader_html_eq (pkg : string * string) :
  entry_ok pkg = true ->
  pkgheader_html pkg = header_html ("Gofem &ndash; package " ++ fst pkg) ++ h1_line pkg.
Proof.
  intros H. unfold pkgheader_html, pkgheader, header_html.
  rewrite (unescape_app _ _ (header_safe _ (title_inert _ H))).
  f_equal. apply inert_unescape. exact (h1_line_inert _ H).
Qed.

Lemma header_html_start (title : string) :
  exists rest, header_html title = "<html>" ++ rest.
Proof. eexists. unfold header_html. expose_template. reflexivity. Qed.

Lemma footer_html_start (licen : string) :
  exists rest, footer_html licen = NL ++ "<div id=" ++ rest.
Proof. eexists. unfold footer_html. expose_template. reflexivity. Qed.

Lemma header_html_echo (title : string) :
  inert title = true -> echo_args_ok [header_html title] = true.
Proof.
  intros H. apply echo_args_single; [now apply header_html_portable|].
  destruct (header_html_start title) as [r ->]. reflexivity.
Qed.

Lemma footer_html_echo (licen : string) :
  inert licen = true -> echo_args_ok [footer_html licen] = true.
Proof.
  intros H. apply echo_args_single; [now apply footer_html_portable|].
  destruct (footer_html_start licen) as [r ->]. reflexivity.
Qed.

Lemma pkgheader_html_echo (pkg : string * string) :
  entry_ok pkg = true -> echo_args_ok [pkgheader_html pkg] = true.
Proof.
  intros H. rewrite (pkgheader_html_eq _ H). apply echo_args_single.
  - rewrite (echo_portable_app _ _ (header_html_portable _ (title_inert _ H))).
    apply inert_echo_portable. exact (h1_line_inert _ H).
  - destruct (header_html_start ("Gofem &ndash; package " ++ fst pkg)) as [r ->].
    reflexivity.
Qed.

Lemma flatName_inert (path : string) :
  all_chars is_plain path = true -> inert (flatName path) = true.
Proof. intros H. apply plain_inert. now apply flatName_plain. Qed.

Lemma pkgitem_split (pkg : string * string) :
  pkgitem pkg =
    ("<dd><a href=" ++ BQ ++ "xx") ++ flatName (fst pkg) ++ (".html" ++ BQ ++ "><b>") ++
    fst pkg ++ "</b>: " ++ snd pkg ++ "</a></dd>".
Proof. reflexivity. Qed.

Lemma pkgitem_quoted (pkg : string * string) :
  entry_ok pkg = true ->
  dq_safe (pkgitem pkg) = true /\
  pkgitem_html pkg =
    "<dd><a href=" ++ DQ ++ "xx" ++ flatName (fst pkg) ++ ".html" ++ DQ ++ "><b>" ++
    fst pkg ++ "</b>: " ++ snd pkg ++ "</a></dd>".
Proof.
  intros H. destruct (entry_ok_parts _ H) as (Hpl & Hp & Hd & _).
  pose proof (flatName_inert _ Hpl) as Hf.
  assert (Htail : inert ("</b>: " ++ snd pkg ++ "</a></dd>") = true).
  { rewrite !inert_app, Hd. reflexivity. }
  unfold pkgitem_html. rewrite pkgitem_split. split.
  - rewrite (dq_safe_app ("<dd><a href=" ++ BQ ++ "xx")) by reflexivity.
    rewrite (dq_safe_app _ _ (inert_safe _ Hf)).
    rewrite (dq_safe_app (".html" ++ BQ ++ "><b>")) by reflexivity.
    rewrite (dq_safe_app _ _ (inert_safe _ Hp)).
    now apply inert_safe.
  - rewrite (unescape_app ("<dd><a href=" ++ BQ ++ "xx")) by reflexivity.
    rewrite (unescape_app _ _ (inert_safe _ Hf)), (inert_unescape _ Hf).
    rewrite (unescape_app (".html" ++ BQ ++ "><b>")) by reflexivity.
    rewrite (unescape_app _ _ (inert_safe _ Hp)), (inert_unescape _ Hp).
    rewrite (inert_unescape _ Htail).
    reflexivity.
Qed.

Lemma pkgitem_html_echo (pkg : string * string) :
  entry_ok pkg = true -> echo_args_ok [pkgitem_html pkg] = true.
Proof.
  intros H. destruct (pkgitem_quoted _ H) as [_ ->].
  destruct (entry_ok_parts _ H) as (Hpl & Hp & Hd & _).
  apply echo_args_single; [|reflexivity].
  apply bslash_free_portable. unfold bslash_free. rewrite !all_chars_app.
  fold (bslash_free (flatName (fst pkg))) (bslash_free (fst pkg)) (bslash_free (snd pkg)).
  rewrite (inert_bslash_free _ (flatName_inert _ Hpl)).
  rewrite (inert_bslash_free _ Hp), (inert_bslash_free _ Hd). reflexivity.
Qed.

(** ** The script, statement by statement *)

Section ScriptRuns.

Variable godoc : string -> string.
Variable report : string -> gmap string string -> string * Z.

Local Abbreviation spawn := (sh godoc report).

Lemma Cmd_quiet (sp : string -> gmap string string -> option process)
    (command : string) (verbose : bool) (w : World) (p : process) :
  sp command (files w) = Some p ->
  exists w', Cmd sp command verbose false w = Ok (p_stdout p, strip (p_stderr p)) w' /\
             files w' = p_files p.
Proof.
  intros H. unfold Cmd, bind, ret, Popen. rewrite H.
  destruct verbose; eexists; (split; [reflexivity | reflexivity]).
Qed.

Lemma Cmd_then {B} (command : string) (fs' : gmap string string) (k : M B) (w : World) :
  option_map p_files (spawn command (files w)) = Some fs' ->
  (Cmd spawn command false false ;; k) w = k {| files := fs'; console := console w |}.
Proof.
  intros H. unfold Cmd, bind, ret, Popen.
  destruct (spawn command (files w)) as [p|]; [|discriminate].
  simpl in H. injection H as <-. reflexivity.
Qed.

Lemma append_file_insert (f a b : string) (fs : gmap string string) :
  append_file f b (<[f := a]> fs) = <[f := a ++ b]> fs.
Proof.
  unfold append_file. rewrite lookup_insert_eq. simpl. apply insert_insert_eq.
Qed.

Lemma fix_after_item (f raw item : string) (g : string -> string)
    (fs : gmap string string) :
  f <> idxfn ->
  match append_file idxfn item (<[f := raw]> fs) !! f with
  | Some text => <[f := g text]> (append_file idxfn item (<[f := raw]> fs))
  | None => append_file idxfn item (<[f := raw]> fs)
  end = append_file idxfn item (<[f := g raw]> fs).
Proof.
  intros Hne. unfold append_file.
  rewrite (lookup_insert_ne _ idxfn f) by congruence.
  rewrite lookup_insert_eq.
  rewrite !(lookup_insert_ne _ f idxfn) by congruence.
  rewrite (insert_insert_ne _ f idxfn) by congruence.
  rewrite insert_insert_eq. reflexivity.
Qed.

Lemma loop_body_ok (licen : string) (pkg : string * string) (w : World) :
  inert licen = true -> entry_ok pkg = true ->
  loop_body spawn licen pkg w =
    Ok tt {| files := loop_step godoc licen (files w) pkg;
             console := console w ++ [pkgfile pkg] |}.
Proof.
  intros HL He. destruct (entry_ok_parts _ He) as (Hpl & _).
  pose proof (pkgfile_plain _ Hpl) as Hf.
  pose proof (pkgfile_nonempty pkg) as Hne.
  unfold loop_body. fold (flatName (fst pkg)). fold (pkgfile pkg).
  fold (sed_command pkg).
  unfold bind at 1. unfold print at 1. cbn [files console].
  rewrite (Cmd_then _ _ _ _
    (sh_echo_create godoc report _ _ _ (pkgheader_safe _ He) (pkgheader_html_echo _ He) Hf Hne)).
  rewrite (Cmd_then _ _ _ _ (sh_godoc godoc report pkg _ Hpl Hf Hne)).
  cbn [files console].
  rewrite (Cmd_then _ _ _ _
    (sh_echo_append godoc report _ _ _ (footer_safe _ HL) (footer_html_echo _ HL) Hf Hne)).
  cbn [files console].
  assert (Hi : all_chars is_plain idxfn = true) by reflexivity.
  assert (Hin : idxfn <> EmptyString) by discriminate.
  rewrite (Cmd_then _ _ _ _
    (sh_echo_append godoc report _ _ _ (proj1 (pkgitem_quoted _ He))
       (pkgitem_html_echo _ He) Hi Hin)).
  cbn [files console].
  rewrite (Cmd_then _ _ _ _ (sh_sed godoc report pkg _ Hpl Hf Hne)).
  unfold ret. cbn [files console]. f_equal. f_equal.
  rewrite !append_file_insert.
  rewrite (fix_after_item _ _ _ (fix_links pkg) _ (pkgfile_not_index pkg)).
  unfold loop_step, page, raw_page, pkgheader_html, footer_html, pkgitem_html.
  rewrite !sapp_assoc. reflexivity.
Qed.

Lemma for_each_ok (licen : string) (registry : list (string * string)) (w : World) :
  inert licen = true -> forallb entry_ok registry = true ->
  for_each registry (loop_body spawn licen) w =
    Ok tt {| files := fold_left (loop_step godoc licen) registry (files w);
             console := console w ++ map pkgfile registry |}.
Proof.
  intros HL. revert w. induction registry as [|pkg reg IH]; intros w Hreg.
  - cbn. unfold ret. rewrite app_nil_r. now destruct w.
  - cbn [forallb] in Hreg. apply andb_true_iff in Hreg as [He Hreg].
    cbn [for_each]. unfold bind at 1. rewrite (loop_body_ok _ _ _ HL He).
    rewrite (IH _ Hreg). cbn [files console fold_left map].
    now rewrite <- app_assoc.
Qed.

Lemma write_pages_index (licen x : string) (registry : list (string * string))
    (fs : gmap string string) :
  fold_left (write_page godoc licen) registry (<[idxfn := x]> fs) =
    <[idxfn := x]> (fold_left (write_page godoc licen) registry fs).
Proof.
  revert fs. induction registry as [|pkg reg IH]; intros fs; [reflexivity|].
  cbn [fold_left]. unfold write_page at 2.
  rewrite (insert_insert_ne _ _ _ _ _ (pkgfile_not_index pkg)).
  rewrite IH. reflexivity.
Qed.

Lemma write_pages_index_lookup (licen : string) (registry : list (string * string))
    (fs : gmap string string) :
  fold_left (write_page godoc licen) registry fs !! idxfn = fs !! idxfn.
Proof.
  revert fs. induction registry as [|pkg reg IH]; intros fs; [reflexivity|].
  cbn [fold_left]. rewrite IH. unfold write_page.
  apply lookup_insert_ne, pkgfile_not_index.
Qed.

Lemma loop_files_built (licen idx0 : string) (registry : list (string * string))
    (fs : gmap string string) :
  fs !! idxfn = Some idx0 ->
  fold_left (loop_step godoc licen) registry fs =
    <[idxfn := idx0 ++ index_items registry]>
      (fold_left (write_page godoc licen) registry fs).
Proof.
  revert fs idx0. induction registry as [|pkg reg IH]; intros fs idx0 H.
  - cbn. rewrite sapp_nil_r. symmetry. now apply insert_id.
  - cbn [fold_left index_items].
    assert (E : loop_step godoc licen fs pkg =
                <[idxfn := idx0 ++ pkgitem_html pkg ++ NL]> (write_page godoc licen fs pkg)).
    { unfold loop_step, append_file, write_page.
      rewrite (lookup_insert_ne _ _ _ _ (pkgfile_not_index pkg)), H. reflexivity. }
    rewrite E, (IH _ (idx0 ++ pkgitem_html pkg ++ NL)) by apply lookup_insert_eq.
    rewrite write_pages_index, insert_insert_eq, !sapp_assoc. reflexivity.
Qed.

(** The run lemma: with a [LICENSE] text that the quoting leaves alone and
    a registry written as expected, the script ends normally, and the files
    are those of [built]. *)
Lemma run_ok (licen : string) (registry : list (string * string)) (w : World) :
  files w !! "LICENSE" = Some licen ->
  inert licen = true -> forallb entry_ok registry = true ->
  run godoc report registry w =
    Ok tt {| files := built godoc licen registry (files w);
             console := console w ++ map pkgfile registry |}.
Proof.
  intros Hlic HL Hreg. unfold run, script.
  unfold bind at 1. unfold open_read. rewrite Hlic.
  assert (Hi : all_chars is_plain idxfn = true) by reflexivity.
  assert (Hin : idxfn <> EmptyString) by discriminate.
  set (title := "Gofem &ndash; Documentation").
  set (b92 := "<h1>Gofem &ndash; Documentation</h1>").
  set (b93 := "<h2 id=" ++ BQ ++ "pkg-index" ++ BQ ++ ">Index</h2>" ++ NL ++
              "<div id=" ++ BQ ++ "manual-nav" ++ BQ ++ ">" ++ NL ++ "<dl>").
  set (b107 := "</dl>" ++ NL ++ "</div><!-- manual-nav -->").
  change ("echo " ++ DQ ++ "<h2 id=" ++ BQ ++ "pkg-index" ++ BQ ++ ">Index</h2>" ++ NL ++
          "<div id=" ++ BQ ++ "manual-nav" ++ BQ ++ ">" ++ NL ++ "<dl>" ++ DQ ++ " >> " ++ idxfn)
    with ("echo " ++ DQ ++ b93 ++ DQ ++ " >> " ++ idxfn).
  change ("echo " ++ DQ ++ "</dl>" ++ NL ++ "</div><!-- manual-nav -->" ++ DQ ++ " >> " ++ idxfn)
    with ("echo " ++ DQ ++ b107 ++ DQ ++ " >> " ++ idxfn).
  rewrite (Cmd_then _ _ _ _
    (sh_echo_create godoc report _ _ _ (header_safe title eq_refl)
       (header_html_echo title eq_refl) Hi Hin)).
  cbn [files console].
  rewrite (Cmd_then _ _ _ _
    (sh_echo_append godoc report b92 _ _ eq_refl eq_refl Hi Hin)).
  cbn [files console].
  rewrite (Cmd_then _ _ _ _
    (sh_echo_append godoc report b93 _ _ eq_refl eq_refl Hi Hin)).
  cbn [files console].
  unfold bind at 1. rewrite (for_each_ok _ _ _ HL Hreg). cbn [files console].
  rewrite (Cmd_then _ _ _ _
    (sh_echo_append godoc report b107 _ _ eq_refl eq_refl Hi Hin)).
  cbn [files console].
  rewrite (Cmd_then _ _ _ _
    (sh_echo_append godoc report _ _ _ (footer_safe _ HL) (footer_html_echo _ HL) Hi Hin)).
  unfold ret. cbn [files console]. f_equal. f_equal.
  rewrite !append_file_insert.
  rewrite (loop_files_built _ _ _ _ (lookup_insert_eq _ _ _)).
  rewrite write_pages_index, insert_insert_eq, !append_file_insert.
  unfold built, index_text, index_tail, footer_html.
  f_equal. rewrite !sapp_assoc. reflexivity.
Qed.

End ScriptRuns.

(** ** [Cmd] *)

(** C10. With [debug=True], [Cmd] prints the rule and then evaluates the
    name [cmd], which nothing binds (the parameter is [command]): for every
    command line and every [verbose] it raises [NameError], with the files
    untouched and whatever the subprocess would have done: none is spawned. *)
Theorem Cmd_debug_raises_NameError
    (spawn : string -> gmap string string -> option process)
    (command : string) (verbose : bool) (w : World) :
  Cmd spawn command verbose true w =
    Raised NameError {| files := files w; console := console w ++ [rule] |}.
Proof. reflexivity. Qed.

Lemma rstrip_spec (s : string) :
  exists b, s = rstrip s ++ b /\ all_space b = true /\ ends_with_space (rstrip s) = false.
Proof.
  induction s as [|c s (b & E & Hb & He)].
  - exists EmptyString. now repeat split.
  - cbn [rstrip]. destruct (rstrip s) as [|d r] eqn:R.
    + destruct (py_space c) eqn:Hc.
      * exists (String c b). simpl in E. subst s. repeat split.
        unfold all_space in *. cbn [all_chars]. now rewrite Hc.
      * exists b. simpl in E. subst s. repeat split; [exact Hb|].
        cbn. exact Hc.
    + exists b. rewrite E at 1. repeat split; [exact Hb|].
      cbn [ends_with_space]. exact He.
Qed.

Lemma lstrip_spec (s : string) :
  exists a, s = a ++ lstrip s /\ all_space a = true /\ starts_with_space (lstrip s) = false.
Proof.
  induction s as [|c s (a & E & Ha & Hs)].
  - exists EmptyString. now repeat split.
  - cbn [lstrip]. destruct (py_space c) eqn:Hc.
    + exists (String c a). cbn. rewrite <- E. repeat split; [|exact Hs].
      unfold all_space in *. cbn [all_chars]. now rewrite Hc.
    + exists EmptyString. repeat split. cbn. exact Hc.
Qed.

Lemma lstrip_keeps_end (s : string) :
  ends_with_space s = false -> ends_with_space (lstrip s) = false.
Proof.
  induction s as [|c s IH]; [reflexivity|].
  intros H. cbn [lstrip]. destruct (py_space c) eqn:Hc; [|exact H].
  apply IH. destruct s as [|d s]; [reflexivity|]. exact H.
Qed.

(** [strip] removes white space at both ends, and nothing else. *)
Lemma strip_spec (s : string) :
  exists a b, s = a ++ strip s ++ b /\ all_space a = true /\ all_space b = true /\
              starts_with_space (strip s) = false /\ ends_with_space (strip s) = false.
Proof.
  destruct (rstrip_spec s) as (b & E & Hb & He).
  destruct (lstrip_spec (rstrip s)) as (a & E' & Ha & Hs).
  exists a, b. unfold strip. repeat split; auto using lstrip_keeps_end.
  rewrite <- sapp_assoc, <- E'. exact E.
Qed.

(** C9, as the code has it.  Without [debug], [Cmd] returns the standard
    output of the subprocess as captured and its standard error stripped of
    white space at both ends ([str.strip()], not only at the end), whatever
    the exit status, and the files are those the subprocess left. *)
Theorem Cmd_returns_streams
    (spawn : string -> gmap string string -> option process)
    (command : string) (verbose : bool) (w : World) (p : process) :
  spawn command (files w) = Some p ->
  (exists w', Cmd spawn command verbose false w =
                Ok (p_stdout p, strip (p_stderr p)) w' /\
              files w' = p_files p) /\
  (exists a b, p_stderr p = a ++ strip (p_stderr p) ++ b /\
               all_space a = true /\ all_space b = true /\
               starts_with_space (strip (p_stderr p)) = false /\
               ends_with_space (strip (p_stderr p)) = false).
Proof.
  intros H. split; [|apply strip_spec].
  unfold Cmd, bind, ret, Popen. rewrite H.
  destruct verbose; eexists; (split; reflexivity).
Qed.

(** ** Missing [LICENSE] *)

(** C7. When there is no [LICENSE] file, [open] raises [IOError] at the
    start: the run ends with that exception and the files and the console
    are as they were, whatever the registry and the shell. *)
Theorem missing_license_aborts
    (spawn : string -> gmap string string -> option process)
    (registry : list (string * string)) (w : World) :
  files w !! "LICENSE" = None ->
  script spawn registry w = Raised IOError w.
Proof.
  intros H. unfold script, bind, open_read. now rewrite H.
Qed.

(** ** The flat name *)

Lemma map_slash_free (p : string) : mem_char "/" (map_str slash_to_dash p) = false.
Proof.
  induction p as [|c p IH]; [reflexivity|].
  cbn [map_str mem_char]. rewrite IH, orb_false_r.
  unfold slash_to_dash. destruct (Ascii.eqb c "/") eqn:E; [reflexivity|].
  rewrite Ascii.eqb_sym. exact E.
Qed.

Lemma map_slash_id (p : string) :
  mem_char "/" p = false -> map_str slash_to_dash p = p.
Proof.
  induction p as [|c p IH]; [reflexivity|].
  cbn [map_str mem_char]. intros [Hc Hp]%orb_false_iff.
  rewrite (IH Hp). unfold slash_to_dash.
  rewrite Ascii.eqb_sym, Hc. reflexivity.
Qed.

(** C4. The flat name is a total function of the path that replaces every
    slash by a dash, character by character; its result has no slash; on a
    path without slash it is the identity, hence idempotent there. *)
Theorem flatName_replaces_slashes (p : string) :
  flatName "mdl/solid" = "mdl-solid" /\
  flatName p = map_str slash_to_dash p /\
  String.length (flatName p) = String.length p /\
  mem_char "/" (flatName p) = false /\
  (mem_char "/" p = false -> flatName p = p /\ flatName (flatName p) = flatName p).
Proof.
  split; [reflexivity|]. split; [apply flatName_map|].
  rewrite flatName_map. split; [|split; [apply map_slash_free|]].
  - induction p as [|c p IH]; [reflexivity|]. cbn. now rewrite IH.
  - intros H. rewrite (map_slash_id _ H). split; [reflexivity|].
    rewrite flatName_map. now apply map_slash_id.
Qed.

(** The flat name is idempotent on every path. *)
Lemma flatName_idempotent (p : string) : flatName (flatName p) = flatName p.
Proof.
  rewrite (flatName_map (flatName p)). apply map_slash_id.
  rewrite flatName_map. apply map_slash_free.
Qed.

(** ** Replacement of every occurrence *)

Section Replace.

Variables old new : string.

Lemma prefix_cons (a b : ascii) (p s : string) :
  String.prefix (String a p) (String b s) =
    Ascii.eqb a b && String.prefix p s.
Proof.
  simpl. destruct (ascii_dec a b) as [->|Hne].
  - now rewrite Ascii.eqb_refl.
  - apply Ascii.eqb_neq in Hne. now rewrite Hne.
Qed.

Lemma prefix_nil (s : string) : String.prefix EmptyString s = true.
Proof. now destruct s. Qed.

Lemma prefix_of_nil (a : ascii) (p : string) :
  String.prefix (String a p) EmptyString = false.
Proof. reflexivity. Qed.

Lemma drop_str_nil (k : nat) : drop_str k EmptyString = EmptyString.
Proof. now destruct k. Qed.

Lemma drop_str_length (k : nat) (s : string) :
  String.length (drop_str k s) = String.length s - k.
Proof.
  revert s. induction k as [|k IH]; intros [|c s]; simpl; try lia. apply IH.
Qed.

Lemma replace_from_skip (k : nat) (s : string) :
  replace_from old new k s = replace_from old new 0 (drop_str k s).
Proof.
  revert k. induction s as [|c s IH]; intros k.
  - now rewrite drop_str_nil.
  - destruct k as [|k]; [reflexivity|]. cbn [replace_from drop_str]. apply IH.
Qed.

Lemma replace_all_nil : replace_all old new EmptyString = EmptyString.
Proof. reflexivity. Qed.

Lemma replace_all_match (s : string) :
  old <> EmptyString -> String.prefix old s = true ->
  replace_all old new s = new ++ replace_all old new (drop_str (String.length old) s).
Proof.
  intros Hne Hp.
  assert (Hl : exists k, String.length old = S k)
    by (destruct old; [congruence | eexists; reflexivity]).
  destruct Hl as [k Hl].
  destruct s as [|c s]; [destruct old; [congruence | discriminate]|].
  unfold replace_all. cbn [replace_from]. rewrite Hp.
  rewrite replace_from_skip, Hl. cbn [drop_str].
  replace (S k - 1) with k by lia. reflexivity.
Qed.

Lemma replace_all_skip (c : ascii) (s : string) :
  String.prefix old (String c s) = false ->
  replace_all old new (String c s) = String c (replace_all old new s).
Proof. intros Hp. unfold replace_all. cbn [replace_from]. now rewrite Hp. Qed.

Lemma clash_prefix (p s t : string) :
  clash p s = true -> String.prefix p (s ++ t) = false.
Proof.
  revert s. induction p as [|a p IH]; intros [|b s] H; try discriminate.
  change (String b s ++ t) with (String b (s ++ t)). rewrite prefix_cons.
  cbn [clash] in H. destruct (Ascii.eqb a b); [|reflexivity].
  now rewrite (IH _ H).
Qed.

Lemma occurs_cons (p : string) (c : ascii) (s : string) :
  occurs p (String c s) = String.prefix p (String c s) || occurs p s.
Proof. reflexivity. Qed.

Lemma occurs_app_clash (p r t : string) :
  clash_inside p r = true -> occurs p (r ++ t) = occurs p t.
Proof.
  induction r as [|c r IH]; [reflexivity|].
  cbn [clash_inside]. intros [Hc Hr]%andb_true_iff.
  change (String c r ++ t) with (String c (r ++ t)).
  rewrite occurs_cons.
  change (String c (r ++ t)) with (String c r ++ t).
  rewrite (clash_prefix _ _ _ Hc). simpl. now apply IH.
Qed.

Lemma prefix_replaced (h : ascii) (new' q t : string) :
  new = String h new' -> mem_char h q = false ->
  String.prefix q (replace_all old new t) = true -> String.prefix q t = true.
Proof.
  intros Hn. revert t. induction q as [|a q IH]; intros t Hq H.
  - apply prefix_nil.
  - cbn [mem_char] in Hq. apply orb_false_iff in Hq as [Ha Hq].
    destruct t as [|b t]; [discriminate|].
    destruct (String.prefix old (String b t)) eqn:Hp.
    + unfold replace_all in H. cbn [replace_from] in H. rewrite Hp, Hn in H.
      change (String h new' ++ ?x) with (String h (new' ++ x)) in H.
      rewrite prefix_cons in H. rewrite Ascii.eqb_sym, Ha in H. discriminate.
    + rewrite (replace_all_skip _ _ Hp) in H. rewrite prefix_cons in H |- *.
      apply andb_true_iff in H as [-> H]. simpl. now apply IH.
Qed.

Lemma replace_all_clean :
  stable old new = true -> forall s, occurs old (replace_all old new s) = false.
Proof.
  unfold stable. intros [[Hne Hf]%andb_true_iff Hc]%andb_true_iff.
  apply negb_true_iff, String.eqb_neq in Hne.
  destruct new as [|h new'] eqn:En; [discriminate|].
  cbn [fresh_start] in Hf. apply negb_true_iff in Hf. rewrite <- En in *.
  intros s. remember (String.length s) as n eqn:Hn. revert s Hn.
  induction n as [n IH] using lt_wf_ind. intros s Hn.
  destruct s as [|c s].
  - rewrite replace_all_nil. destruct old; [congruence | reflexivity].
  - destruct (String.prefix old (String c s)) eqn:Hp.
    + rewrite (replace_all_match _ Hne Hp), (occurs_app_clash _ _ _ Hc).
      apply (IH (String.length (drop_str (String.length old) (String c s)))); [|reflexivity].
      rewrite drop_str_length. subst n. destruct old; [congruence|]. simpl. lia.
    + rewrite (replace_all_skip _ _ Hp), occurs_cons.
      rewrite (IH (String.length s)); [|subst n; simpl; lia | reflexivity].
      rewrite orb_false_r.
      destruct (String.prefix old (String c (replace_all old new s))) eqn:Hq;
        [|reflexivity].
      rewrite <- (replace_all_skip _ _ Hp) in Hq.
      rewrite (prefix_replaced h new' old _ En Hf Hq) in Hp. discriminate.
Qed.

Lemma replace_all_absent (t : string) :
  occurs old t = false -> replace_all old new t = t.
Proof.
  induction t as [|c t IH]; [reflexivity|].
  rewrite occurs_cons. intros [Hp Ht]%orb_false_iff.
  rewrite (replace_all_skip _ _ Hp). now rewrite (IH Ht).
Qed.

Lemma replace_all_idempotent :
  stable old new = true ->
  forall s, replace_all old new (replace_all old new s) = replace_all old new s.
Proof.
  intros H s. apply replace_all_absent. now apply replace_all_clean.
Qed.

Lemma prefix_app_sep (c : ascii) (p s1 s2 : string) :
  mem_char c p = false ->
  String.prefix p (s1 ++ String c s2) = String.prefix p s1.
Proof.
  revert s1. induction p as [|a p IH]; intros s1 H.
  - now rewrite !prefix_nil.
  - cbn [mem_char] in H. apply orb_false_iff in H as [Ha Hp].
    destruct s1 as [|d s1].
    + change (EmptyString ++ String c s2) with (String c s2).
      rewrite prefix_cons, prefix_of_nil, Ascii.eqb_sym, Ha. reflexivity.
    + change (String d s1 ++ String c s2) with (String d (s1 ++ String c s2)).
      rewrite !prefix_cons. now rewrite (IH _ Hp).
Qed.

(** A character that [old] does not have separates the text: the
    replacement works on each side. *)
Lemma replace_all_sep (c : ascii) (s1 s2 : string) :
  old <> EmptyString -> mem_char c old = false ->
  replace_all old new (s1 ++ String c s2) =
    replace_all old new s1 ++ String c (replace_all old new s2).
Proof.
  intros Hne Hc. remember (String.length s1) as n eqn:Hn. revert s1 Hn.
  induction n as [n IH] using lt_wf_ind. intros s1 Hn.
  destruct s1 as [|d s1].
  - change (EmptyString ++ String c s2) with (String c s2).
    rewrite replace_all_skip; [reflexivity|].
    change (String c s2) with (EmptyString ++ String c s2).
    rewrite (prefix_app_sep _ _ _ _ Hc).
    destruct old; [congruence | reflexivity].
  - destruct (String.prefix old (String d s1)) eqn:Hp.
    + pose proof (prefix_true_split _ _ Hp) as E.
      set (t := drop_str (String.length old) (String d s1)) in *.
      rewrite (replace_all_match _ Hne Hp). fold t.
      rewrite E at 1. rewrite sapp_assoc.
      rewrite (replace_all_match _ Hne (prefix_app _ _)), drop_str_app.
      rewrite (IH (String.length t)); [now rewrite sapp_assoc | | reflexivity].
      subst n t. rewrite drop_str_length. destruct old; [congruence|]. simpl. lia.
    + change (String d s1 ++ String c s2) with (String d (s1 ++ String c s2)).
      rewrite replace_all_skip.
      * rewrite (replace_all_skip _ _ Hp).
        rewrite (IH (String.length s1)); [reflexivity | subst n; simpl; lia | reflexivity].
      * change (String d (s1 ++ String c s2)) with (String d s1 ++ String c s2).
        now rewrite (prefix_app_sep _ _ _ _ Hc).
Qed.

End Replace.

(** ** The link-fixing step *)

Lemma registry_checked :
  forallb (fun pkg => entry_ok pkg && stable placeholder (link_url pkg) &&
                      negb (occurs placeholder (link_url pkg))) pkgs = true.
Proof. vm_compute. reflexivity. Qed.

Lemma registry_entry (pkg : string * string) :
  In pkg pkgs ->
  entry_ok pkg = true /\ stable placeholder (link_url pkg) = true /\
  occurs placeholder (link_url pkg) = false.
Proof.
  intros H. pose proof (proj1 (forallb_forall _ _) registry_checked pkg H) as E.
  apply andb_true_iff in E as [[E1 E2]%andb_true_iff E3].
  apply negb_true_iff in E3. auto.
Qed.

(** C6. For every entry of the registry the replacement text, the
    repository URL of the package, holds no occurrence of the placeholder;
    the substitution applied to its own result changes nothing, on a text and
    as the [sed] command on the files. *)
Theorem link_fixing_idempotent (pkg : string * string) :
  In pkg pkgs ->
  occurs placeholder (link_url pkg) = false /\
  (forall text, fix_links pkg (fix_links pkg text) = fix_links pkg text) /\
  (forall godoc report fs fs1,
     option_map p_files (sh godoc report (sed_command pkg) fs) = Some fs1 ->
     option_map p_files (sh godoc report (sed_command pkg) fs1) = Some fs1).
Proof.
  intros Hin. destruct (registry_entry _ Hin) as (He & Hs & Ho).
  split; [exact Ho|]. split.
  - intros text. unfold fix_links. now apply replace_all_idempotent.
  - intros godoc report fs fs1.
    destruct (entry_ok_parts _ He) as (Hpl & _).
    rewrite !(sh_sed godoc report pkg _ Hpl (pkgfile_plain _ Hpl) (pkgfile_nonempty pkg)).
    intros [= <-]. f_equal.
    destruct (fs !! pkgfile pkg) as [t|] eqn:E.
    + rewrite lookup_insert_eq, insert_insert_eq. unfold fix_links.
      now rewrite replace_all_idempotent.
    + now rewrite E.
Qed.

(** The first entry of the registry. *)
Lemma link_fixing_idempotent_witness :
  In ("ana", "analytical solutions") pkgs /\
  occurs placeholder (link_url ("ana", "analytical solutions")) = false /\
  (forall text,
     fix_links ("ana", "analytical solutions")
       (fix_links ("ana", "analytical solutions") text) =
     fix_links ("ana", "analytical solutions") text).
Proof.
  assert (Hin : In ("ana", "analytical solutions") pkgs) by (left; reflexivity).
  destruct (link_fixing_idempotent _ Hin) as (H1 & H2 & _).
  exact (conj Hin (conj H1 H2)).
Defined.

(** ** Lines *)

Lemma lines_nonempty (s : string) : exists l ls, lines s = l :: ls.
Proof.
  induction s as [|c s (l & ls & E)]; [eauto|].
  cbn [lines]. destruct (is_newline c); [eauto|]. rewrite E. eauto.
Qed.

Lemma lines_app_nl (a b : string) : lines (a ++ NL ++ b) = (lines a ++ lines b)%list.
Proof.
  induction a as [|c a IH]; [reflexivity|].
  change (String c a ++ NL ++ b) with (String c (a ++ NL ++ b)).
  cbn [lines]. rewrite IH. destruct (is_newline c); [reflexivity|].
  destruct (lines_nonempty a) as (l & ls & ->). reflexivity.
Qed.

Lemma lines_one_line (s : string) : one_line s = true -> lines s = [s].
Proof.
  induction s as [|c s IH]; [reflexivity|].
  cbn [one_line all_chars lines]. intros [Hc Hs]%andb_true_iff.
  apply negb_true_iff in Hc. rewrite Hc, (IH Hs). reflexivity.
Qed.

Lemma drop_through_app (mark : string) (l1 l2 : list string) :
  existsb (String.eqb mark) l1 = true ->
  drop_through mark (l1 ++ l2) = (drop_through mark l1 ++ l2)%list.
Proof.
  induction l1 as [|l l1 IH]; [discriminate|].
  cbn [existsb drop_through app]. rewrite (String.eqb_sym mark l).
  destruct (String.eqb l mark); [reflexivity|]. exact IH.
Qed.

Lemma take_until_app (mark : string) (l1 l2 : list string) :
  forallb (fun l => negb (String.eqb l mark)) l1 = true ->
  take_until mark (l1 ++ mark :: l2) = l1.
Proof.
  induction l1 as [|l l1 IH].
  - intros _. cbn. now rewrite String.eqb_refl.
  - cbn [forallb take_until app]. intros [Hl H]%andb_true_iff.
    apply negb_true_iff in Hl. rewrite Hl, (IH H). reflexivity.
Qed.

Lemma plain_one_line (s : string) : all_chars is_plain s = true -> one_line s = true.
Proof.
  apply all_chars_impl. intros c Hc.
  now destruct (plain_char_facts c Hc) as (_ & _ & _ & _ & _ & _ & -> & _).
Qed.

Lemma pkgitem_html_line (pkg : string * string) :
  entry_ok pkg = true ->
  one_line (pkgitem_html pkg) = true /\ String.eqb (pkgitem_html pkg) "</dl>" = false.
Proof.
  intros H. destruct (pkgitem_quoted _ H) as [_ ->].
  destruct (entry_ok_parts _ H) as (Hpl & _ & _ & Hd).
  split; [|reflexivity].
  unfold one_line. rewrite !all_chars_app.
  fold (one_line (flatName (fst pkg))) (one_line (fst pkg)) (one_line (snd pkg)).
  rewrite (plain_one_line _ (flatName_plain _ Hpl)), (plain_one_line _ Hpl), Hd.
  reflexivity.
Qed.

Lemma lines_index_items (registry : list (string * string)) (rest : string) :
  forallb entry_ok registry = true ->
  lines (index_items registry ++ rest) = (map pkgitem_html registry ++ lines rest)%list.
Proof.
  induction registry as [|pkg reg IH]; [reflexivity|].
  cbn [forallb index_items map]. intros [He Hr]%andb_true_iff.
  rewrite !sapp_assoc, lines_app_nl, (IH Hr).
  now rewrite (lines_one_line _ (proj1 (pkgitem_html_line _ He))).
Qed.

Lemma index_head_lines (rest : string) :
  drop_through "<dl>" (lines (index_head ++ rest)) = lines rest.
Proof.
  set (X := header_html "Gofem &ndash; Documentation" ++ NL ++
            "<h1>Gofem &ndash; Documentation</h1>" ++ NL ++
            "<h2 id=" ++ DQ ++ "pkg-index" ++ DQ ++ ">Index</h2>" ++ NL ++
            "<div id=" ++ DQ ++ "manual-nav" ++ DQ ++ ">" ++ NL ++ "<dl>").
  assert (E : index_head = X ++ NL) by (vm_compute; reflexivity).
  rewrite E, sapp_assoc, lines_app_nl.
  rewrite drop_through_app by (vm_compute; reflexivity).
  replace (drop_through "<dl>" (lines X)) with (@nil string) by (vm_compute; reflexivity).
  reflexivity.
Qed.

(** The items that the index lists are those of the registry, in order. *)
Lemma list_items_index (licen : string) (registry : list (string * string)) :
  forallb entry_ok registry = true ->
  list_items (index_text licen registry) = map pkgitem_html registry.
Proof.
  intros H. unfold list_items, index_text.
  rewrite index_head_lines, (lines_index_items _ _ H).
  unfold index_tail. rewrite lines_app_nl.
  change (lines "</dl>") with ["</dl>"]. cbn [app].
  apply take_until_app.
  induction registry as [|pkg reg IH]; [reflexivity|].
  cbn [forallb map] in *. apply andb_true_iff in H as [He Hr].
  rewrite (proj2 (pkgitem_html_line _ He)), (IH Hr). reflexivity.
Qed.

Lemma up_to_quote_app (a r : string) :
  all_chars (fun c => negb (is_dquote c)) a = true ->
  up_to_quote (a ++ DQ ++ r) = a.
Proof.
  induction a as [|c a IH]; [reflexivity|].
  cbn [all_chars]. intros [Hc Ha]%andb_true_iff. apply negb_true_iff in Hc.
  change (String c a ++ DQ ++ r) with (String c (a ++ DQ ++ r)).
  cbn [up_to_quote]. now rewrite Hc, (IH Ha).
Qed.

Lemma pkgitem_href (pkg : string * string) :
  entry_ok pkg = true ->
  href (pkgitem_html pkg) = Some ("xx" ++ flatName (fst pkg) ++ ".html").
Proof.
  intros H. destruct (pkgitem_quoted _ H) as [_ ->].
  destruct (entry_ok_parts _ H) as (Hpl & _).
  change (href ("<dd><a href=" ++ DQ ++ "xx" ++ flatName (fst pkg) ++ ".html" ++ DQ ++
                "><b>" ++ fst pkg ++ "</b>: " ++ snd pkg ++ "</a></dd>"))
    with (Some (up_to_quote ("xx" ++ flatName (fst pkg) ++ ".html" ++ DQ ++
                "><b>" ++ fst pkg ++ "</b>: " ++ snd pkg ++ "</a></dd>"))).
  f_equal. rewrite <- (sapp_assoc (flatName (fst pkg))), <- (sapp_assoc "xx").
  apply up_to_quote_app. rewrite !all_chars_app.
  apply andb_true_iff; split; [reflexivity|].
  apply andb_true_iff; split; [|reflexivity].
  generalize (flatName_plain _ Hpl). apply all_chars_impl. intros c Hc.
  now destruct (plain_char_facts c Hc) as (_ & -> & _).
Qed.

(** ** The footer command for any license text *)

Lemma lex_cons (m : lmode) (c : ascii) (s' : string) :
  lex m (String c s') =
    match m with
    | Blank =>
        if is_blank c then lex Blank s'
        else if is_gt c then
          match s' with
          | String d s'' =>
              if is_gt d then emit GtGt (lex Blank s'') else emit Gt (lex Blank s')
          | EmptyString => emit Gt (lex Blank s')
          end
        else if is_dquote c then lex InDq s'
        else if is_squote c then lex InSq s'
        else if is_plain c then push c (lex InWord s')
        else Unsupported
    | InWord =>
        if is_blank c then emit (Word EmptyString) (lex Blank s')
        else if is_dquote c then lex InDq s'
        else if is_squote c then lex InSq s'
        else if is_plain c then push c (lex InWord s')
        else Unsupported
    | InDq =>
        if is_dquote c then lex InWord s'
        else if is_bslash c then
          match s' with
          | EmptyString => SyntaxError
          | String d s'' =>
              if dq_escapable d then push d (lex InDq s'')
              else if is_newline d then lex InDq s''
              else push c (push d (lex InDq s''))
          end
        else if is_dollar c || is_bquote c then Unsupported
        else push c (lex InDq s')
    | InSq =>
        if is_squote c then lex InWord s'
        else push c (lex InSq s')
    end.
Proof. reflexivity. Qed.

Lemma push_toks (c : ascii) (r : lexres) (ts : list token) :
  push c r = Toks ts ->
  exists w ts0, r = Toks (Word w :: ts0) /\ ts = Word (String c w) :: ts0.
Proof.
  destruct r as [[|[w| |] ts0]| |]; cbn; intros H; try discriminate.
  injection H as <-. eauto.
Qed.

Lemma emit_toks (t : token) (r : lexres) (ts : list token) :
  emit t r = Toks ts -> exists ts0, r = Toks ts0 /\ ts = t :: ts0.
Proof.
  destruct r as [ts0| |]; cbn; intros H; try discriminate.
  injection H as <-. eauto.
Qed.

Lemma lex_blank_space (r : string) : lex Blank (" " ++ r) = lex Blank r.
Proof. reflexivity. Qed.

(** What follows a command line after a blank is read on its own: the
    tokens of the line, then the tokens of what follows. *)
Lemma lex_extend (rest : string) (tl : list token) :
  lex Blank rest = Toks tl ->
  forall (s : string) (m : lmode) (ts : list token),
    lex m s = Toks ts -> lex m (s ++ " " ++ rest) = Toks (ts ++ tl).
Proof.
  intros Ht s. remember (String.length s) as n eqn:Hn. revert s Hn.
  induction n as [n IH] using lt_wf_ind. intros s Hn m ts.
  assert (IH' : forall s1 m1 ts1, String.length s1 < n -> lex m1 s1 = Toks ts1 ->
                  lex m1 (s1 ++ " " ++ rest) = Toks (ts1 ++ tl)).
  { intros s1 m1 ts1 Hl H1. exact (IH _ Hl s1 eq_refl m1 ts1 H1). }
  clear IH. destruct s as [|c s].
  - destruct m; cbn [lex]; intros H; try discriminate; injection H as <-.
    + change (EmptyString ++ " " ++ rest) with (" " ++ rest).
      now rewrite lex_blank_space.
    + change (EmptyString ++ " " ++ rest) with (" " ++ rest).
      now rewrite lex_word_blank, Ht.
  - change (String c s ++ " " ++ rest) with (String c (s ++ " " ++ rest)).
    rewrite !lex_cons. cbn [String.length] in Hn.
    destruct m.
    + destruct (is_blank c); [intros H; apply IH'; [lia | exact H]|].
      destruct (is_gt c).
      { destruct s as [|d s'].
        - intros H. cbn [lex emit] in H. injection H as <-.
          change (EmptyString ++ " " ++ rest) with (String " " rest).
          cbv iota. change (is_gt " ") with false. cbv iota.
          change (String " " rest) with (" " ++ rest).
          now rewrite lex_blank_space, Ht.
        - change (String d s' ++ " " ++ rest) with (String d (s' ++ " " ++ rest)).
          cbv iota. cbn [String.length] in Hn. destruct (is_gt d); intros H.
          + apply emit_toks in H as (ts0 & H0 & ->).
            rewrite (IH' s' Blank ts0) by (lia || exact H0). reflexivity.
          + apply emit_toks in H as (ts0 & H0 & ->).
            change (String d (s' ++ " " ++ rest)) with (String d s' ++ " " ++ rest).
            rewrite (IH' (String d s') Blank ts0) by (cbn; lia || exact H0). reflexivity. }
      destruct (is_dquote c); [intros H; apply IH'; [lia | exact H]|].
      destruct (is_squote c); [intros H; apply IH'; [lia | exact H]|].
      destruct (is_plain c); [|discriminate].
      intros H. apply push_toks in H as (w & ts0 & H0 & ->).
      rewrite (IH' s InWord _) by (lia || exact H0). reflexivity.
    + destruct (is_blank c).
      { intros H. apply emit_toks in H as (ts0 & H0 & ->).
        rewrite (IH' s Blank ts0) by (lia || exact H0). reflexivity. }
      destruct (is_dquote c); [intros H; apply IH'; [lia | exact H]|].
      destruct (is_squote c); [intros H; apply IH'; [lia | exact H]|].
      destruct (is_plain c); [|discriminate].
      intros H. apply push_toks in H as (w & ts0 & H0 & ->).
      rewrite (IH' s InWord _) by (lia || exact H0). reflexivity.
    + destruct (is_dquote c); [intros H; apply IH'; [lia | exact H]|].
      destruct (is_bslash c).
      { destruct s as [|d s']; [discriminate|].
        change (String d s' ++ " " ++ rest) with (String d (s' ++ " " ++ rest)).
        cbv iota. cbn [String.length] in Hn.
        destruct (dq_escapable d).
        { intros H. apply push_toks in H as (w & ts0 & H0 & ->).
          rewrite (IH' s' InDq _) by (lia || exact H0). reflexivity. }
        destruct (is_newline d); [intros H; apply IH'; [lia | exact H]|].
        intros H. apply push_toks in H as (w & ts0 & H0 & ->).
        apply push_toks in H0 as (w' & ts1 & H1 & [= -> ->]).
        rewrite (IH' s' InDq _) by (lia || exact H1). reflexivity. }
      destruct (is_dollar c || is_bquote c); [discriminate|].
      intros H. apply push_toks in H as (w & ts0 & H0 & ->).
      rewrite (IH' s InDq _) by (lia || exact H0). reflexivity.
    + destruct (is_squote c); [intros H; apply IH'; [lia | exact H]|].
      intros H. apply push_toks in H as (w & ts0 & H0 & ->).
      rewrite (IH' s InSq _) by (lia || exact H0). reflexivity.
Qed.

Lemma words_of_map (ts : list token) (args : list string) :
  words_of ts = Some args -> ts = map Word args.
Proof.
  revert args. induction ts as [|[w| |] ts IH]; intros args H; cbn in H; try discriminate.
  - now injection H as <-.
  - destruct (words_of ts) as [ws|]; [|discriminate].
    injection H as <-. cbn. now rewrite (IH ws).
Qed.

Lemma parse_words_append (args : list string) (f : string) :
  parse_cmd (map Word args ++ [GtGt; Word f]) =
    Some {| argv := args; redirs := [(true, f)] |}.
Proof.
  induction args as [|a args IH]; [reflexivity|].
  cbn [map app parse_cmd]. now rewrite IH.
Qed.

Lemma lex_append_target (f : string) :
  all_chars is_plain f = true -> f <> EmptyString ->
  lex Blank (">> " ++ f) = Toks [GtGt; Word f].
Proof.
  intros Hf Hne.
  change (lex Blank (">> " ++ f)) with (emit GtGt (lex Blank (" " ++ f))).
  now rewrite lex_blank_space, (lex_blank_word _ Hf Hne).
Qed.

Lemma lex_echo_words (body f : string) (ts : list token) :
  lex InDq (body ++ DQ) = Toks ts ->
  all_chars is_plain f = true -> f <> EmptyString ->
  lex Blank ("echo " ++ DQ ++ body ++ DQ ++ " >> " ++ f) =
    Toks (Word "echo" :: ts ++ [GtGt; Word f]).
Proof.
  intros Hl Hf Hne. rewrite lex_echo_head.
  replace (body ++ DQ ++ " >> " ++ f) with ((body ++ DQ) ++ " " ++ (">> " ++ f))
    by (now rewrite sapp_assoc).
  rewrite (lex_extend _ _ (lex_append_target f Hf Hne) _ _ _ Hl).
  cbn [emit]. now rewrite push_str_word, sapp_nil_r.
Qed.

Lemma echoed_safe (body : string) :
  dq_safe body = true -> echo_args_ok [unescape body] = true ->
  echoed body = Some (unescape body ++ NL).
Proof.
  intros Hb He. unfold echoed.
  change (body ++ DQ) with (body ++ DQ ++ EmptyString).
  rewrite (lex_dq_body _ _ Hb), lex_dq_close. cbn [lex].
  rewrite push_str_word, sapp_nil_r. cbn [words_of]. rewrite He. reflexivity.
Qed.

(** A license text that the quoting leaves alone lands as it is. *)
Lemma echoed_footer_inert (licen : string) :
  inert licen = true -> echoed (footer licen) = Some (footer_html licen ++ NL).
Proof.
  intros H. exact (echoed_safe _ (footer_safe _ H) (footer_html_echo _ H)).
Qed.

Section GeneralRun.

Variable godoc : string -> string.
Variable report : string -> gmap string string -> string * Z.

Local Abbreviation spawn := (sh godoc report).

Lemma sh_echo_words (body f out : string) (fs : gmap string string) :
  echoed body = Some out ->
  all_chars is_plain f = true -> f <> EmptyString ->
  option_map p_files (sh godoc report ("echo " ++ DQ ++ body ++ DQ ++ " >> " ++ f) fs) =
    Some (append_file f out fs).
Proof.
  intros H Hf Hne. unfold echoed in H.
  destruct (lex InDq (body ++ DQ)) as [ts| |] eqn:El; try discriminate.
  destruct (words_of ts) as [args|] eqn:Ew; [|discriminate].
  destruct (echo_args_ok args) eqn:Ea; [|discriminate].
  injection H as <-. apply words_of_map in Ew. subst ts.
  rewrite (sh_tokens godoc report _ _ {| argv := "echo" :: args; redirs := [(true, f)] |}
             fs (lex_echo_words _ _ _ El Hf Hne)).
  - unfold run_simple. cbn [argv redirs fold_left last].
    cbn [run_prog]. rewrite Ea. cbn [option_map snd].
    now rewrite append_after_open.
  - cbn [parse_cmd]. now rewrite parse_words_append.
Qed.

Lemma loop_body_with (licen ftxt : string) (pkg : string * string) (w : World) :
  echoed (footer licen) = Some ftxt -> entry_ok pkg = true ->
  loop_body spawn licen pkg w =
    Ok tt {| files := loop_step_with godoc ftxt (files w) pkg;
             console := console w ++ [pkgfile pkg] |}.
Proof.
  intros HF He. destruct (entry_ok_parts _ He) as (Hpl & _).
  pose proof (pkgfile_plain _ Hpl) as Hf.
  pose proof (pkgfile_nonempty pkg) as Hne.
  unfold loop_body. fold (flatName (fst pkg)). fold (pkgfile pkg).
  fold (sed_command pkg).
  unfold bind at 1. unfold print at 1. cbn [files console].
  rewrite (Cmd_then godoc report _ _ _ _
    (sh_echo_create godoc report _ _ _ (pkgheader_safe _ He) (pkgheader_html_echo _ He) Hf Hne)).
  rewrite (Cmd_then godoc report _ _ _ _ (sh_godoc godoc report pkg _ Hpl Hf Hne)).
  cbn [files console].
  rewrite (Cmd_then godoc report _ _ _ _ (sh_echo_words _ _ _ _ HF Hf Hne)).
  cbn [files console].
  assert (Hi : all_chars is_plain idxfn = true) by reflexivity.
  assert (Hin : idxfn <> EmptyString) by discriminate.
  rewrite (Cmd_then godoc report _ _ _ _
    (sh_echo_append godoc report _ _ _ (proj1 (pkgitem_quoted _ He))
       (pkgitem_html_echo _ He) Hi Hin)).
  cbn [files console].
  rewrite (Cmd_then godoc report _ _ _ _ (sh_sed godoc report pkg _ Hpl Hf Hne)).
  unfold ret. cbn [files console]. f_equal. f_equal.
  rewrite !append_file_insert.
  rewrite (fix_after_item _ _ _ (fix_links pkg) _ (pkgfile_not_index pkg)).
  unfold loop_step_with, page_with, pkgheader_html, pkgitem_html.
  rewrite !sapp_assoc. reflexivity.
Qed.

Lemma for_each_with (licen ftxt : string) (registry : list (string * string))
    (w : World) :
  echoed (footer licen) = Some ftxt -> forallb entry_ok registry = true ->
  for_each registry (loop_body spawn licen) w =
    Ok tt {| files := fold_left (loop_step_with godoc ftxt) registry (files w);
             console := console w ++ map pkgfile registry |}.
Proof.
  intros HF. revert w. induction registry as [|pkg reg IH]; intros w Hreg.
  - cbn. unfold ret. rewrite app_nil_r. now destruct w.
  - cbn [forallb] in Hreg. apply andb_true_iff in Hreg as [He Hreg].
    cbn [for_each]. unfold bind at 1. rewrite (loop_body_with _ _ _ _ HF He).
    rewrite (IH _ Hreg). cbn [files console fold_left map].
    now rewrite <- app_assoc.
Qed.

Lemma write_pages_with_index (ftxt x : string) (registry : list (string * string))
    (fs : gmap string string) :
  fold_left (write_page_with godoc ftxt) registry (<[idxfn := x]> fs) =
    <[idxfn := x]> (fold_left (write_page_with godoc ftxt) registry fs).
Proof.
  revert fs. induction registry as [|pkg reg IH]; intros fs; [reflexivity|].
  cbn [fold_left]. unfold write_page_with at 2.
  rewrite (insert_insert_ne _ _ _ _ _ (pkgfile_not_index pkg)).
  rewrite IH. reflexivity.
Qed.

Lemma loop_files_built_with (ftxt idx0 : string) (registry : list (string * string))
    (fs : gmap string string) :
  fs !! idxfn = Some idx0 ->
  fold_left (loop_step_with godoc ftxt) registry fs =
    <[idxfn := idx0 ++ index_items registry]>
      (fold_left (write_page_with godoc ftxt) registry fs).
Proof.
  revert fs idx0. induction registry as [|pkg reg IH]; intros fs idx0 H.
  - cbn. rewrite sapp_nil_r. symmetry. now apply insert_id.
  - cbn [fold_left index_items].
    assert (E : loop_step_with godoc ftxt fs pkg =
                <[idxfn := idx0 ++ pkgitem_html pkg ++ NL]>
                  (write_page_with godoc ftxt fs pkg)).
    { unfold loop_step_with, append_file, write_page_with.
      rewrite (lookup_insert_ne _ _ _ _ (pkgfile_not_index pkg)), H. reflexivity. }
    rewrite E, (IH _ (idx0 ++ pkgitem_html pkg ++ NL)) by apply lookup_insert_eq.
    rewrite write_pages_with_index, insert_insert_eq, !sapp_assoc. reflexivity.
Qed.

(** The run lemma for any license text that the shell reads as words of
    the footer commands: the script ends normally, and the files are those
    of [built_with], with the footer as [echo] prints it. *)
Lemma run_with (licen ftxt : string) (registry : list (string * string)) (w : World) :
  files w !! "LICENSE" = Some licen ->
  echoed (footer licen) = Some ftxt -> forallb entry_ok registry = true ->
  run godoc report registry w =
    Ok tt {| files := built_with godoc ftxt registry (files w);
             console := console w ++ map pkgfile registry |}.
Proof.
  intros Hlic HF Hreg. unfold run, script.
  unfold bind at 1. unfold open_read. rewrite Hlic.
  assert (Hi : all_chars is_plain idxfn = true) by reflexivity.
  assert (Hin : idxfn <> EmptyString) by discriminate.
  set (title := "Gofem &ndash; Documentation").
  set (b92 := "<h1>Gofem &ndash; Documentation</h1>").
  set (b93 := "<h2 id=" ++ BQ ++ "pkg-index" ++ BQ ++ ">Index</h2>" ++ NL ++
              "<div id=" ++ BQ ++ "manual-nav" ++ BQ ++ ">" ++ NL ++ "<dl>").
  set (b107 := "</dl>" ++ NL ++ "</div><!-- manual-nav -->").
  change ("echo " ++ DQ ++ "<h2 id=" ++ BQ ++ "pkg-index" ++ BQ ++ ">Index</h2>" ++ NL ++
          "<div id=" ++ BQ ++ "manual-nav" ++ BQ ++ ">" ++ NL ++ "<dl>" ++ DQ ++ " >> " ++ idxfn)
    with ("echo " ++ DQ ++ b93 ++ DQ ++ " >> " ++ idxfn).
  change ("echo " ++ DQ ++ "</dl>" ++ NL ++ "</div><!-- manual-nav -->" ++ DQ ++ " >> " ++ idxfn)
    with ("echo " ++ DQ ++ b107 ++ DQ ++ " >> " ++ idxfn).
  rewrite (Cmd_then godoc report _ _ _ _
    (sh_echo_create godoc report _ _ _ (header_safe title eq_refl)
       (header_html_echo title eq_refl) Hi Hin)).
  cbn [files console].
  rewrite (Cmd_then godoc report _ _ _ _
    (sh_echo_append godoc report b92 _ _ eq_refl eq_refl Hi Hin)).
  cbn [files console].
  rewrite (Cmd_then godoc report _ _ _ _
    (sh_echo_append godoc report b93 _ _ eq_refl eq_refl Hi Hin)).
  cbn [files console].
  unfold bind at 1. rewrite (for_each_with _ _ _ _ HF Hreg). cbn [files console].
  rewrite (Cmd_then godoc report _ _ _ _
    (sh_echo_append godoc report b107 _ _ eq_refl eq_refl Hi Hin)).
  cbn [files console].
  rewrite (Cmd_then godoc report _ _ _ _ (sh_echo_words _ _ _ _ HF Hi Hin)).
  unfold ret. cbn [files console]. f_equal. f_equal.
  rewrite !append_file_insert.
  rewrite (loop_files_built_with _ _ _ _ (lookup_insert_eq _ _ _)).
  rewrite write_pages_with_index, insert_insert_eq, !append_file_insert.
  unfold built_with, index_with.
  f_equal. rewrite !sapp_assoc. reflexivity.
Qed.

(** *** The files of [built_with] *)

Lemma pages_with_other (ftxt : string) (registry : list (string * string))
    (fs : gmap string string) (f : string) :
  (forall pkg, In pkg registry -> pkgfile pkg <> f) ->
  fold_left (write_page_with godoc ftxt) registry fs !! f = fs !! f.
Proof.
  revert fs. induction registry as [|pkg reg IH]; intros fs H; [reflexivity|].
  cbn [fold_left]. rewrite IH by (intros p Hp; apply H; now right).
  unfold write_page_with. apply lookup_insert_ne, H. now left.
Qed.

(** A file is either out of reach of the pages, or holds the page of an
    entry whatever it held before. *)
Lemma pages_with_cases (ftxt : string) (registry : list (string * string))
    (f : string) :
  (forall fs, fold_left (write_page_with godoc ftxt) registry fs !! f = fs !! f) \/
  (exists q, In q registry /\ pkgfile q = f /\
     forall fs, fold_left (write_page_with godoc ftxt) registry fs !! f =
                Some (page_with godoc ftxt q)).
Proof.
  induction registry as [|pkg rest IH]; [left; reflexivity|].
  cbn [fold_left]. destruct IH as [IH|(q & Hq & Hf & IH)].
  - destruct (decide (pkgfile pkg = f)) as [E|E].
    + right. exists pkg. split; [now left|]. split; [exact E|].
      intros fs. rewrite IH. unfold write_page_with. rewrite E. apply lookup_insert_eq.
    + left. intros fs. rewrite IH. unfold write_page_with. now apply lookup_insert_ne.
  - right. exists q. split; [now right|]. split; [exact Hf|]. intros fs. apply IH.
Qed.

Lemma pages_with_fixed (ftxt : string) (registry : list (string * string))
    (pkg : string * string) :
  In pkg registry ->
  exists q, In q registry /\ pkgfile q = pkgfile pkg /\
    forall fs, fold_left (write_page_with godoc ftxt) registry fs !! pkgfile pkg =
               Some (page_with godoc ftxt q).
Proof.
  intros Hin.
  destruct (pages_with_cases ftxt registry (pkgfile pkg)) as [H|H]; [|exact H].
  exfalso. apply in_split in Hin as (l1 & l2 & ->).
  destruct (pages_with_cases ftxt l2 (pkgfile pkg)) as [H2|(q & _ & _ & H2)].
  - specialize (H ∅). rewrite fold_left_app in H. cbn [fold_left] in H.
    rewrite H2 in H. unfold write_page_with in H.
    rewrite lookup_insert_eq in H. discriminate.
  - specialize (H ∅). rewrite fold_left_app in H. cbn [fold_left] in H.
    rewrite H2 in H. discriminate.
Qed.

Lemma pages_with_lookup (ftxt : string) (registry : list (string * string))
    (fs : gmap string string) (pkg : string * string) :
  NoDup (map pkgfile registry) -> In pkg registry ->
  fold_left (write_page_with godoc ftxt) registry fs !! pkgfile pkg =
    Some (page_with godoc ftxt pkg).
Proof.
  revert fs. induction registry as [|p reg IH]; intros fs Hnd Hin; [destruct Hin|].
  cbn [map] in Hnd. apply NoDup_cons in Hnd as [Hp Hnd].
  cbn [fold_left]. destruct Hin as [->|Hin]; [|now apply IH].
  rewrite pages_with_other.
  - unfold write_page_with. apply lookup_insert_eq.
  - intros q Hq E. apply Hp. rewrite <- E.
    apply list_elem_of_In, in_map, Hq.
Qed.

Lemma built_with_other (ftxt : string) (registry : list (string * string))
    (fs : gmap string string) (f : string) :
  f <> idxfn -> (forall pkg, In pkg registry -> f <> pkgfile pkg) ->
  built_with godoc ftxt registry fs !! f = fs !! f.
Proof.
  intros Hi Hp. unfold built_with. rewrite lookup_insert_ne by congruence.
  apply pages_with_other. intros pkg Hin E. exact (Hp pkg Hin (eq_sym E)).
Qed.

Lemma built_with_license (ftxt : string) (registry : list (string * string))
    (fs : gmap string string) :
  built_with godoc ftxt registry fs !! "LICENSE" = fs !! "LICENSE".
Proof.
  apply built_with_other; [discriminate|].
  intros pkg _ E. exact (pkgfile_not_license pkg (eq_sym E)).
Qed.

Lemma built_with_again (ftxt : string) (registry : list (string * string))
    (fs : gmap string string) :
  built_with godoc ftxt registry (built_with godoc ftxt registry fs) =
    built_with godoc ftxt registry fs.
Proof.
  unfold built_with. rewrite write_pages_with_index, insert_insert_eq. f_equal.
  apply map_eq. intros f.
  destruct (pages_with_cases ftxt registry f) as [H|(q & _ & _ & H)].
  - now rewrite H.
  - now rewrite !H.
Qed.

(** For an entry of the source the link-fixing step leaves the header and
    the first line alone: it works on what follows them. *)
Lemma page_with_split (ftxt : string) (pkg : string * string) :
  In pkg pkgs ->
  page_with godoc ftxt pkg =
    pkgheader_html pkg ++ NL ++ fix_links pkg (godoc (pkgid pkg) ++ ftxt).
Proof.
  intros Hin.
  assert (E : fix_links pkg (pkgheader_html pkg) = pkgheader_html pkg).
  { assert (Hall : forallb (fun p => String.eqb (fix_links p (pkgheader_html p))
                                       (pkgheader_html p)) pkgs = true)
      by (vm_compute; reflexivity).
    apply String.eqb_eq. exact (proj1 (forallb_forall _ _) Hall pkg Hin). }
  unfold page_with, fix_links in *.
  change (NL ++ ?x) with (String "010" x).
  rewrite replace_all_sep by (reflexivity || discriminate).
  now rewrite E.
Qed.

End GeneralRun.

(** The items that the index lists are those of the registry, in order,
    whatever the footer. *)
Lemma list_items_index_with (ftxt : string) (registry : list (string * string)) :
  forallb entry_ok registry = true ->
  list_items (index_with ftxt registry) = map pkgitem_html registry.
Proof.
  intros H. unfold list_items, index_with.
  rewrite index_head_lines, (lines_index_items _ _ H).
  rewrite lines_app_nl.
  change (lines "</dl>") with ["</dl>"]. cbn [app].
  apply take_until_app.
  induction registry as [|pkg reg IH]; [reflexivity|].
  cbn [forallb map] in *. apply andb_true_iff in H as [He Hr].
  rewrite (proj2 (pkgitem_html_line _ He)), (IH Hr). reflexivity.
Qed.

(** ** The files after a run *)

Section Runs.

Variable godoc : string -> string.
Variable report : string -> gmap string string -> string * Z.

Lemma written_pages_other (licen : string) (registry : list (string * string))
    (fs : gmap string string) (f : string) :
  (forall pkg, In pkg registry -> pkgfile pkg <> f) ->
  fold_left (write_page godoc licen) registry fs !! f = fs !! f.
Proof.
  revert fs. induction registry as [|pkg reg IH]; intros fs H; [reflexivity|].
  cbn [fold_left]. rewrite IH by (intros p Hp; apply H; now right).
  unfold write_page. apply lookup_insert_ne, H. now left.
Qed.

Lemma written_pages_kept (licen : string) (registry : list (string * string))
    (fs : gmap string string) (f : string) :
  is_Some (fs !! f) -> is_Some (fold_left (write_page godoc licen) registry fs !! f).
Proof.
  revert fs. induction registry as [|pkg reg IH]; intros fs H; [exact H|].
  cbn [fold_left]. apply IH. unfold write_page.
  destruct (decide (pkgfile pkg = f)) as [->|Hne].
  - rewrite lookup_insert_eq. eauto.
  - now rewrite lookup_insert_ne.
Qed.

Lemma written_pages_exist (licen : string) (registry : list (string * string))
    (fs : gmap string string) (pkg : string * string) :
  In pkg registry ->
  is_Some (fold_left (write_page godoc licen) registry fs !! pkgfile pkg).
Proof.
  revert fs. induction registry as [|p reg IH]; intros fs; [intros []|].
  intros [->|H]; cbn [fold_left]; [|now apply IH].
  apply written_pages_kept. unfold write_page. rewrite lookup_insert_eq. eauto.
Qed.



End Runs.

(** ** One entry *)

Lemma footer_html_inert (licen : string) :
  inert licen = true -> footer_html licen = footer_open ++ licen ++ footer_close.
Proof.
  intros H. unfold footer_html. expose_template.
  rewrite (unescape_app _ _ (inert_safe _ H)), (inert_unescape _ H). reflexivity.
Qed.

Lemma registry_headers_fixed :
  forallb (fun pkg => String.eqb (fix_links pkg (pkgheader_html pkg)) (pkgheader_html pkg))
    pkgs = true.
Proof. vm_compute. reflexivity. Qed.

(** For an entry of the registry the link-fixing step leaves the header and
    the first line alone: it works on what follows them. *)
Lemma page_split (godoc : string -> string) (licen : string) (pkg : string * string) :
  In pkg pkgs ->
  page godoc licen pkg =
    pkgheader_html pkg ++ NL ++ fix_links pkg (godoc (pkgid pkg) ++ footer_html licen ++ NL).
Proof.
  intros Hin.
  pose proof (proj1 (forallb_forall _ _) registry_headers_fixed pkg Hin) as E.
  apply String.eqb_eq in E.
  unfold page, raw_page, fix_links in *.
  change (NL ++ ?x) with (String "010" x).
  rewrite replace_all_sep by (reflexivity || discriminate).
  now rewrite E.
Qed.

Section OneEntry.

Variable godoc : string -> string.
Variable report : string -> gmap string string -> string * Z.


End OneEntry.



(** ** Occurrences of a block in a text *)

Lemma prefix_length (p s : string) :
  String.prefix p s = true -> String.length p <= String.length s.
Proof.
  revert s. induction p as [|a p IH]; intros [|b s] H; simpl; try lia; try discriminate.
  rewrite prefix_cons in H. apply andb_true_iff in H as [_ H].
  specialize (IH _ H). lia.
Qed.

Lemma prefix_app_l (p s r : string) :
  String.prefix p s = true -> String.prefix p (s ++ r) = true.
Proof.
  revert s. induction p as [|a p IH]; intros s H; [apply prefix_nil|].
  destruct s as [|b s]; [discriminate|].
  change (String b s ++ r) with (String b (s ++ r)).
  rewrite prefix_cons in H |- *. apply andb_true_iff in H as [-> H]. now apply IH.
Qed.

Lemma prefix_fit (p s r : string) :
  String.length p <= String.length s ->
  String.prefix p (s ++ r) = String.prefix p s.
Proof.
  revert s. induction p as [|a p IH]; intros s H; [now rewrite !prefix_nil|].
  destruct s as [|b s]; [simpl in H; lia|].
  change (String b s ++ r) with (String b (s ++ r)).
  rewrite !prefix_cons. rewrite IH by (simpl in H; lia). reflexivity.
Qed.

Lemma prefix_straddle (p u w : string) :
  String.prefix p (u ++ w) = true -> String.length u <= String.length p ->
  String.prefix (drop_str (String.length u) p) w = true.
Proof.
  revert p. induction u as [|c u IH]; intros p H Hl; [exact H|].
  destruct p as [|a p]; [simpl in Hl; lia|].
  change (String c u ++ w) with (String c (u ++ w)) in H.
  rewrite prefix_cons in H. apply andb_true_iff in H as [_ H].
  cbn [String.length drop_str]. apply IH; [exact H | simpl in Hl; lia].
Qed.

Lemma prefix_all_chars (f : ascii -> bool) (p s : string) :
  String.prefix p s = true -> all_chars f s = true -> all_chars f p = true.
Proof.
  revert s. induction p as [|a p IH]; intros s H Hs; [reflexivity|].
  destruct s as [|b s]; [discriminate|].
  rewrite prefix_cons in H. apply andb_true_iff in H as [E H].
  apply Ascii.eqb_eq in E. subst b.
  cbn [all_chars] in *. apply andb_true_iff in Hs as [-> Hs]. now apply (IH s).
Qed.

Lemma prefix_common (p a r : string) :
  String.prefix p (a ++ r) = true -> String.length a <= String.length p ->
  String.prefix a p = true.
Proof.
  revert p. induction a as [|c a IH]; intros p H Hl; [apply prefix_nil|].
  destruct p as [|b p]; [simpl in Hl; lia|].
  change (String c a ++ r) with (String c (a ++ r)) in H.
  rewrite prefix_cons in H |- *. apply andb_true_iff in H as [E H].
  rewrite Ascii.eqb_sym, E. apply IH; [exact H | simpl in Hl; lia].
Qed.

Lemma clash_prefix_app (x y r1 r2 : string) :
  clash x y = true -> String.prefix (x ++ r1) (y ++ r2) = false.
Proof.
  revert y. induction x as [|a x IH]; intros [|b y] H; try discriminate.
  change (String a x ++ r1) with (String a (x ++ r1)).
  change (String b y ++ r2) with (String b (y ++ r2)).
  rewrite prefix_cons. cbn [clash] in H.
  destruct (Ascii.eqb a b); [|reflexivity]. now rewrite (IH _ H).
Qed.

Lemma prefix_drop (k : nat) (p s : string) :
  String.prefix p s = true ->
  String.prefix (drop_str k p) (drop_str k s) = true.
Proof.
  revert p s. induction k as [|k IH]; intros p s H; [exact H|].
  destruct p as [|a p]; [apply prefix_nil|].
  destruct s as [|b s]; [discriminate|].
  rewrite prefix_cons in H. apply andb_true_iff in H as [_ H].
  cbn [drop_str]. now apply IH.
Qed.

Lemma drop_str_app_le (i : nat) (a b : string) :
  i <= String.length a -> drop_str i (a ++ b) = drop_str i a ++ b.
Proof.
  revert a. induction i as [|i IH]; intros a H; [reflexivity|].
  destruct a as [|c a]; [simpl in H; lia|].
  change (String c a ++ b) with (String c (a ++ b)). cbn [drop_str].
  apply IH. simpl in H. lia.
Qed.

Lemma drop_str_app_ge (j : nat) (a b : string) :
  drop_str (String.length a + j) (a ++ b) = drop_str j b.
Proof. induction a as [|c a IH]; [reflexivity | exact IH]. Qed.

Lemma drop_str_all (s : string) : drop_str (String.length s) s = EmptyString.
Proof. induction s as [|c s IH]; [reflexivity | exact IH]. Qed.

(** A text without double quote cannot match, from inside, a block whose
    double quote comes after the place where the text starts. *)
Lemma dq_free_mismatch (a u t r : string) :
  dq_free t = true -> String.length u <= String.length a ->
  String.prefix (a ++ DQ ++ r) (u ++ t) = false.
Proof.
  intros Ht Hl. destruct (String.prefix (a ++ DQ ++ r) (u ++ t)) eqn:H; [|reflexivity].
  apply (prefix_drop (String.length u)) in H.
  rewrite (drop_str_app_le _ a _ Hl) in H.
  replace (drop_str (String.length u) (u ++ t)) with t in H
    by (rewrite <- (Nat.add_0_r (String.length u)), drop_str_app_ge; reflexivity).
  pose proof (prefix_all_chars _ _ _ H Ht) as C.
  rewrite !all_chars_app in C. apply andb_true_iff in C as [_ C].
  apply andb_true_iff in C as [C _]. discriminate.
Qed.

Lemma occurs_at_start (p r : string) : occurs_at p (p ++ r) 0 = true.
Proof. unfold occurs_at. cbn [drop_str Nat.leb]. apply prefix_app. Qed.

Lemma occurs_at_app_r (p a b : string) (j : nat) :
  occurs_at p (a ++ b) (String.length a + j) = occurs_at p b j.
Proof.
  unfold occurs_at. rewrite drop_str_app_ge, length_sapp. f_equal.
  destruct (Nat.leb_spec j (String.length b));
    [apply Nat.leb_le | apply Nat.leb_gt]; lia.
Qed.

Lemma occurs_at_length (p s : string) (i : nat) :
  occurs_at p s i = true -> i + String.length p <= String.length s.
Proof.
  unfold occurs_at. intros [Hi Hp]%andb_true_iff.
  apply Nat.leb_le in Hi. apply prefix_length in Hp.
  rewrite drop_str_length in Hp. lia.
Qed.

Lemma occurs_at_fit (p s r : string) (i : nat) :
  i + String.length p <= String.length s ->
  occurs_at p (s ++ r) i = occurs_at p s i.
Proof.
  intros H. unfold occurs_at. rewrite length_sapp.
  rewrite drop_str_app_le by lia.
  rewrite prefix_fit by (rewrite drop_str_length; lia).
  f_equal. transitivity true; [|symmetry]; apply Nat.leb_le; lia.
Qed.

Lemma occurs_at_clash_inside (p s r : string) (i : nat) :
  clash_inside p s = true -> i < String.length s -> occurs_at p (s ++ r) i = false.
Proof.
  revert i. induction s as [|c s IH]; intros i H Hi; [simpl in Hi; lia|].
  cbn [clash_inside] in H. apply andb_true_iff in H as [Hc Hs].
  destruct i as [|i].
  - unfold occurs_at. cbn [drop_str]. rewrite (clash_prefix _ _ _ Hc).
    apply andb_false_r.
  - change (String c s ++ r) with (String c EmptyString ++ (s ++ r)).
    change (S i) with (String.length (String c EmptyString) + i).
    rewrite occurs_at_app_r. apply IH; [exact Hs | simpl in Hi; lia].
Qed.

Lemma occurs_at_absent (p s : string) (i : nat) :
  occurs p s = false -> occurs_at p s i = false.
Proof.
  revert i. induction s as [|c s IH]; intros i H.
  - cbn [occurs] in H. rewrite orb_false_r in H. unfold occurs_at.
    destruct i; [cbn [drop_str]; rewrite H; apply andb_false_r | reflexivity].
  - rewrite occurs_cons in H. apply orb_false_iff in H as [Hp Hs].
    destruct i as [|i].
    + unfold occurs_at. cbn [drop_str]. rewrite Hp. apply andb_false_r.
    + change (String c s) with (String c EmptyString ++ s).
      change (S i) with (String.length (String c EmptyString) + i).
      rewrite occurs_at_app_r. now apply IH.
Qed.

Lemma forallb_seq (f : nat -> bool) (a n t : nat) :
  forallb f (seq a n) = true -> a <= t < a + n -> f t = true.
Proof.
  intros H Ht. apply (proj1 (forallb_forall f (seq a n)) H). apply in_seq. lia.
Qed.

Lemma filter_seq_none (f : nat -> bool) (k : nat) :
  (forall i, f i = true -> i = k) ->
  forall m b, k < b -> List.filter f (seq b m) = [].
Proof.
  intros H m. induction m as [|m IH]; intros b Hb; [reflexivity|].
  cbn [seq List.filter]. destruct (f b) eqn:E.
  - apply H in E. lia.
  - apply IH. lia.
Qed.

Lemma filter_seq_one (f : nat -> bool) (k : nat) :
  (forall i, f i = true <-> i = k) ->
  forall n a, a <= k < a + n -> List.filter f (seq a n) = [k].
Proof.
  intros H n. induction n as [|n IH]; intros a Ha; [lia|].
  cbn [seq List.filter]. destruct (f a) eqn:E.
  - apply H in E. subst a. f_equal.
    apply (filter_seq_none f k); [intros i Hi; now apply H | lia].
  - apply IH. assert (a <> k) by (intros ->; rewrite (proj2 (H k) eq_refl) in E; discriminate).
    lia.
Qed.

Lemma positions_unique (p s : string) (k : nat) :
  (forall i, occurs_at p s i = true <-> i = k) -> positions p s = [k].
Proof.
  intros H. unfold positions.
  assert (Hk : k <= String.length s).
  { pose proof (proj2 (H k) eq_refl) as E. apply occurs_at_length in E. lia. }
  apply filter_seq_one; [exact H | lia].
Qed.

Lemma prefix_app_inv (a b s : string) :
  String.prefix (a ++ b) s = true -> String.prefix a s = true.
Proof.
  revert s. induction a as [|c a IH]; intros s H; [apply prefix_nil|].
  destruct s as [|d s]; [discriminate|].
  change (String c a ++ b) with (String c (a ++ b)) in H.
  rewrite prefix_cons in H |- *. apply andb_true_iff in H as [-> H]. now apply IH.
Qed.

Lemma occurs_at_weaken (a b s : string) (i : nat) :
  occurs_at (a ++ b) s i = true -> occurs_at a s i = true.
Proof.
  unfold occurs_at. intros [-> H]%andb_true_iff. now apply prefix_app_inv in H.
Qed.

Lemma all_chars_drop (f : ascii -> bool) (k : nat) (s : string) :
  all_chars f s = true -> all_chars f (drop_str k s) = true.
Proof.
  revert s. induction k as [|k IH]; intros s H; [exact H|].
  destruct s as [|c s]; [reflexivity|].
  cbn [all_chars] in H. apply andb_true_iff in H as [_ H]. now apply IH.
Qed.

Lemma substring_length (n : nat) (s : string) :
  n <= String.length s -> String.length (String.substring 0 n s) = n.
Proof.
  revert s. induction n as [|n IH]; intros s H; [now destruct s|].
  destruct s as [|c s]; [simpl in H; lia|].
  cbn [String.substring String.length]. rewrite IH; [reflexivity | simpl in H; lia].
Qed.

Lemma occurs_at_S (p s : string) (i : nat) :
  0 < String.length s -> occurs_at p s (S i) = occurs_at p (drop_str 1 s) i.
Proof.
  destruct s as [|c s]; [simpl; lia|]. intros _.
  change (String c s) with (String c EmptyString ++ s) at 1.
  change (S i) with (String.length (String c EmptyString) + i).
  now rewrite occurs_at_app_r.
Qed.

Lemma occurs_at_prefix (p s : string) (i : nat) :
  occurs_at p s i = true -> String.prefix p (drop_str i s) = true.
Proof. unfold occurs_at. now intros [_ H]%andb_true_iff. Qed.

(** ** A page: one header, one footer

    The fixed texts are [hd] (header), [top] (header and first line), [fo]
    and [fc] (the footer around the license text); [body] is the tool
    output after the link fixing.  The page is
    [top ++ NL ++ body ++ fo ++ licen ++ fc ++ NL]. *)

Section Wrapped.

Variables hd top fo fc licen body : string.

Hypothesis checks : wrap_checks hd top fo fc = true.
Hypothesis license_dq_free : dq_free licen = true.

Local Abbreviation ftr := (wrapped_footer fo licen fc).
Local Abbreviation text := (wrapped_text top body fo licen fc).

Hypothesis body_no_header : occurs hd (NL ++ body ++ NL) = false.
Hypothesis body_no_footer : occurs ftr (NL ++ body ++ NL) = false.

Lemma wrap_checks_parts :
  String.prefix hd top = true /\
  clash_inside hd (drop_str 1 (top ++ NL)) = true /\
  forallb (fun t => clash (drop_str t hd) fo) (seq 1 (String.length hd - 2)) = true /\
  clash_inside hd fo = true /\
  dq_free hd = false /\
  clash_inside fo top = true /\
  forallb (fun t => clash (drop_str t fo) fo) (seq 1 (String.length fo - 10)) = true /\
  forallb (fun t => clash (drop_str t fc) fo) (seq 0 (String.length fc - 1)) = true /\
  String.prefix (String.substring 0 9 fo ++ DQ) fo = true /\
  dq_free fc = true /\
  10 <= String.length fc /\ 10 <= String.length fo /\
  String.prefix NL fo = true /\ 2 <= String.length hd /\
  clash fo (drop_str 1 fo) = true.
Proof.
  pose proof checks as H. unfold wrap_checks in H.
  repeat (apply andb_true_iff in H; destruct H as [H ?]).
  repeat split; try assumption.
  - now apply negb_true_iff.
  - now apply Nat.leb_le.
  - now apply Nat.leb_le.
  - now apply Nat.leb_le.
Qed.

Lemma footer_starts_with_newline : exists rest, ftr = NL ++ rest.
Proof.
  destruct wrap_checks_parts as (_ & _ & _ & _ & _ & _ & _ & _ & _ & _ & _ & _ & H & _).
  apply prefix_true_split in H. exists (drop_str 1 fo ++ licen ++ fc).
  unfold wrapped_footer. rewrite H at 1. now rewrite sapp_assoc.
Qed.

Lemma top_length : String.length hd <= String.length top.
Proof.
  destruct wrap_checks_parts as (H & _). now apply prefix_length.
Qed.

Lemma tail_dq_free (k : nat) : dq_free (drop_str k (licen ++ fc ++ NL)) = true.
Proof.
  destruct wrap_checks_parts as (_ & _ & _ & _ & _ & _ & _ & _ & _ & H & _).
  apply all_chars_drop. unfold dq_free in *.
  rewrite !all_chars_app, license_dq_free, H. reflexivity.
Qed.

(** The header cannot start after the tool output. *)
Lemma header_not_in_footer (q : nat) : occurs_at hd (ftr ++ NL) q = false.
Proof.
  destruct wrap_checks_parts as (_ & _ & _ & H3 & H4 & _).
  unfold wrapped_footer. rewrite !sapp_assoc.
  destruct (Nat.lt_ge_cases q (String.length fo)) as [Hq|Hq].
  - now apply occurs_at_clash_inside.
  - replace q with (String.length fo + (q - String.length fo)) by lia.
    rewrite occurs_at_app_r.
    destruct (occurs_at hd (licen ++ fc ++ NL) (q - String.length fo)) eqn:E;
      [|reflexivity].
    apply occurs_at_prefix in E.
    pose proof (prefix_all_chars _ _ _ E (tail_dq_free _)) as C.
    unfold dq_free in H4. congruence.
Qed.

(** The header cannot start in the tool output and end in the footer. *)
Lemma header_not_across (j : nat) :
  j < String.length body ->
  String.length body + 1 < j + String.length hd ->
  occurs_at hd (body ++ ftr ++ NL) j = false.
Proof.
  intros Hj Hlong.
  destruct wrap_checks_parts as (_ & _ & H2 & _).
  destruct (occurs_at hd (body ++ ftr ++ NL) j) eqn:E; [|reflexivity].
  pose proof (occurs_at_length _ _ _ E) as Hlen.
  apply occurs_at_prefix in E.
  rewrite drop_str_app_le in E by lia.
  apply prefix_straddle in E; [|rewrite drop_str_length; lia].
  rewrite drop_str_length in E.
  assert (Hc : clash (drop_str (String.length body - j) hd) fo = true).
  { apply (forallb_seq _ _ _ _ H2). lia. }
  unfold wrapped_footer in E. rewrite !sapp_assoc in E.
  rewrite (clash_prefix _ _ _ Hc) in E. discriminate.
Qed.

Theorem header_once (i : nat) : occurs_at hd text i = true <-> i = 0.
Proof.
  destruct wrap_checks_parts as (H0 & H1 & _).
  pose proof top_length as Htop.
  destruct wrap_checks_parts as (_ & _ & _ & _ & _ & _ & _ & _ & _ & _ & _ & _ & _ & Hhd & _).
  split.
  - intros E. destruct (Nat.eq_dec i 0) as [|Hi]; [assumption|]. exfalso.
    destruct (Nat.lt_ge_cases i (String.length top + 1)) as [Hin|Hin].
    + (* inside the header or the first line *)
      unfold wrapped_text in E. rewrite <- (sapp_assoc top NL) in E.
      replace i with (S (i - 1)) in E by lia.
      rewrite occurs_at_S in E by (rewrite !length_sapp; simpl; lia).
      rewrite drop_str_app_le in E by (rewrite length_sapp; simpl; lia).
      rewrite (occurs_at_clash_inside _ _ _ _ H1) in E; [discriminate|].
      rewrite drop_str_length, length_sapp. simpl. lia.
    + (* after them *)
      unfold wrapped_text in E. rewrite <- (sapp_assoc top NL) in E.
      replace i with (String.length (top ++ NL) + (i - String.length top - 1)) in E
        by (rewrite length_sapp; simpl; lia).
      rewrite occurs_at_app_r in E.
      set (j := i - String.length top - 1) in *.
      destruct (Nat.lt_ge_cases j (String.length body)) as [Hj|Hj].
      * destruct (Nat.le_gt_cases (j + String.length hd) (String.length body + 1))
          as [Hfit|Hlong].
        -- destruct footer_starts_with_newline as [rest Er].
           rewrite Er in E.
           replace (body ++ (NL ++ rest) ++ NL) with ((body ++ NL) ++ rest ++ NL) in E
             by (now rewrite !sapp_assoc).
           rewrite occurs_at_fit in E by (rewrite length_sapp; simpl; lia).
           pose proof (occurs_at_absent _ _ (S j) body_no_header) as C.
           change (S j) with (String.length NL + j) in C.
           rewrite occurs_at_app_r in C. congruence.
        -- rewrite (header_not_across j Hj Hlong) in E. discriminate.
      * replace j with (String.length body + (j - String.length body)) in E by lia.
        rewrite occurs_at_app_r, header_not_in_footer in E. discriminate.
  - intros ->. unfold wrapped_text, occurs_at. cbn [drop_str Nat.leb].
    now apply prefix_app_l.
Qed.

(** The footer cannot start in the tool output and end in the footer. *)
Lemma footer_not_across (t : nat) :
  1 <= t -> t + 2 <= String.length ftr ->
  String.prefix (drop_str t ftr) (ftr ++ NL) = false.
Proof.
  intros Ht1 Ht2.
  destruct wrap_checks_parts
    as (_ & _ & _ & _ & _ & _ & H6 & H7 & H8 & H9 & Hfc & Hfo & _).
  assert (Hlen : String.length ftr =
                 String.length fo + String.length licen + String.length fc).
  { unfold wrapped_footer. rewrite !length_sapp. lia. }
  apply prefix_true_split in H8.
  set (a9 := String.substring 0 9 fo) in *.
  assert (Hq : String.length a9 = 9) by (apply substring_length; lia).
  assert (Ha9 : String.length (a9 ++ DQ) = 10) by (rewrite length_sapp, Hq; reflexivity).
  destruct (Nat.le_gt_cases t (String.length fo - 10)) as [Hc1|Hc1].
  - (* starts early in the opening of the footer *)
    unfold wrapped_footer. rewrite drop_str_app_le by lia. rewrite !sapp_assoc.
    apply clash_prefix_app. apply (forallb_seq _ _ _ _ H6). lia.
  - destruct (Nat.le_gt_cases t (String.length fo + String.length licen)) as [Hc2|Hc2].
    + (* a text without double quote against the opening of the footer *)
      destruct (String.prefix (drop_str t ftr) (ftr ++ NL)) eqn:E; [|reflexivity].
      exfalso. set (F := ftr) in E at 1. unfold wrapped_footer in E.
      rewrite H8, !sapp_assoc in E.
      rewrite <- (sapp_assoc a9 DQ) in E. subst F.
      apply prefix_common in E; [|rewrite drop_str_length; lia].
      destruct (Nat.lt_ge_cases t (String.length fo)) as [Hin|Hin].
      * unfold wrapped_footer in E. rewrite drop_str_app_le in E by lia.
        rewrite <- (sapp_nil_r (a9 ++ DQ)), sapp_assoc in E.
        rewrite dq_free_mismatch in E; [discriminate | |].
        -- unfold dq_free in *. now rewrite all_chars_app, license_dq_free, H9.
        -- rewrite drop_str_length. lia.
      * unfold wrapped_footer in E.
        replace t with (String.length fo + (t - String.length fo)) in E by lia.
        rewrite drop_str_app_ge in E.
        rewrite <- (sapp_nil_r (a9 ++ DQ)), sapp_assoc in E.
        change (drop_str (t - String.length fo) (licen ++ fc))
          with (EmptyString ++ drop_str (t - String.length fo) (licen ++ fc)) in E.
        rewrite dq_free_mismatch in E; [discriminate | | simpl; lia].
        apply all_chars_drop. unfold dq_free in *.
        now rewrite all_chars_app, license_dq_free, H9.
    + (* starts in the closing of the footer *)
      unfold wrapped_footer at 1.
      replace t with (String.length fo + (String.length licen +
                        (t - String.length fo - String.length licen))) by lia.
      rewrite !drop_str_app_ge.
      unfold wrapped_footer. rewrite !sapp_assoc. apply clash_prefix.
      apply (forallb_seq _ _ _ _ H7). lia.
Qed.

Theorem footer_once (i : nat) :
  occurs_at ftr text i = true <-> i = String.length (top ++ NL ++ body).
Proof.
  destruct wrap_checks_parts
    as (_ & _ & _ & _ & _ & H5 & _ & _ & _ & _ & _ & Hfo & _ & _ & H14).
  assert (Hnl : String.length NL = 1) by reflexivity.
  split.
  - intros E.
    pose proof (occurs_at_length _ _ _ E) as Hlen.
    unfold wrapped_text in Hlen. rewrite !length_sapp, Hnl in Hlen.
    rewrite !length_sapp, Hnl.
    destruct (Nat.lt_ge_cases i (String.length top)) as [Hin|Hin].
    + (* inside the header or the first line *)
      exfalso. apply occurs_at_weaken in E. unfold wrapped_text in E.
      rewrite (occurs_at_clash_inside _ _ _ _ H5 Hin) in E. discriminate.
    + destruct (Nat.le_gt_cases i (String.length top + String.length body)) as [Hb|Hb].
      * (* from the line break before the tool output *)
        exfalso. unfold wrapped_text in E.
        replace i with (String.length top + (i - String.length top)) in E by lia.
        rewrite occurs_at_app_r in E.
        set (j := i - String.length top) in *.
        destruct (Nat.le_gt_cases (j + String.length ftr) (String.length body + 2))
          as [Hfit|Hlong].
        -- destruct footer_starts_with_newline as [rest Er].
           rewrite Er in E at 2.
           replace (NL ++ body ++ (NL ++ rest) ++ NL)
             with ((NL ++ body ++ NL) ++ rest ++ NL) in E
             by (now rewrite !sapp_assoc).
           rewrite occurs_at_fit in E by (rewrite !length_sapp, Hnl; lia).
           rewrite (occurs_at_absent _ _ j body_no_footer) in E. discriminate.
        -- apply occurs_at_prefix in E.
           rewrite <- (sapp_assoc NL body) in E.
           rewrite drop_str_app_le in E by (rewrite length_sapp, Hnl; lia).
           apply prefix_straddle in E;
             [|rewrite drop_str_length, length_sapp, Hnl; lia].
           rewrite drop_str_length, length_sapp, Hnl in E.
           rewrite footer_not_across in E; [discriminate | lia | lia].
      * (* after the start of the footer *)
        destruct (Nat.eq_dec i (String.length top + (1 + String.length body)))
          as [|Hne]; [assumption|].
        exfalso.
        unfold wrapped_text in E.
        replace (top ++ NL ++ body ++ ftr ++ NL)
          with ((top ++ NL ++ body) ++ ftr ++ NL) in E by (now rewrite !sapp_assoc).
        replace i with (String.length (top ++ NL ++ body) + 1) in E
          by (rewrite !length_sapp, Hnl; lia).
        rewrite occurs_at_app_r in E. apply occurs_at_prefix in E.
        unfold wrapped_footer in E. rewrite !sapp_assoc in E.
        rewrite drop_str_app_le in E by lia.
        rewrite (clash_prefix_app _ _ _ _ H14) in E. discriminate.
  - intros ->. unfold wrapped_text.
    replace (top ++ NL ++ body ++ ftr ++ NL)
      with ((top ++ NL ++ body) ++ ftr ++ NL) by (now rewrite !sapp_assoc).
    rewrite <- (Nat.add_0_r (String.length (top ++ NL ++ body))).
    rewrite occurs_at_app_r. apply occurs_at_start.
Qed.

End Wrapped.

(** ** The pages of the registry *)

Lemma registry_wrap_checked :
  forallb (fun pkg => wrap_checks (header_html (page_title pkg)) (pkgheader_html pkg)
                        footer_open footer_close) pkgs = true.
Proof. vm_compute. reflexivity. Qed.

Lemma registry_files_distinct : NoDup (map pkgfile pkgs).
Proof. apply (bool_decide_unpack _). vm_compute. exact I. Qed.

Lemma inert_dq_free (s : string) : inert s = true -> dq_free s = true.
Proof.
  apply all_chars_impl. intros c Hc. apply negb_true_iff in Hc.
  now destruct (inert_char_facts c Hc) as (-> & _).
Qed.

(** The link-fixing step leaves the footer alone when the license text does
    not hold the placeholder. *)
Lemma footer_links_fixed (pkg : string * string) (licen out : string) :
  inert licen = true -> occurs placeholder licen = false ->
  fix_links pkg (out ++ footer_html licen ++ NL) =
    fix_links pkg out ++ footer_html licen ++ NL.
Proof.
  intros HL Ho. rewrite (footer_html_inert _ HL). unfold fix_links.
  set (fo := String.substring 1 (String.length footer_open - 2) footer_open).
  set (fc := drop_str 1 footer_close).
  assert (Efo : footer_open = String "010" (fo ++ String "010" EmptyString))
    by (vm_compute; reflexivity).
  assert (Efc : footer_close = String "<" fc) by (vm_compute; reflexivity).
  rewrite Efo, Efc.
  change (String "010" (fo ++ String "010" EmptyString) ++ licen ++ String "<" fc)
    with (String "010" ((fo ++ String "010" EmptyString) ++ licen ++ String "<" fc)).
  change (String "010" ?x ++ NL) with (String "010" (x ++ NL)).
  rewrite replace_all_sep by (reflexivity || discriminate).
  do 2 f_equal.
  rewrite !sapp_assoc.
  change (String "010" EmptyString ++ ?x) with (String "010" x).
  rewrite replace_all_sep by (reflexivity || discriminate).
  change (String "<" fc ++ NL) with (String "<" (fc ++ NL)).
  rewrite replace_all_sep by (reflexivity || discriminate).
  rewrite (replace_all_absent _ _ licen Ho).
  rewrite (replace_all_absent _ _ fo) by (vm_compute; reflexivity).
  rewrite (replace_all_absent _ _ (fc ++ NL)) by (vm_compute; reflexivity).
  reflexivity.
Qed.

Section Pages.

Variable godoc : string -> string.
Variable report : string -> gmap string string -> string * Z.

Lemma written_page_lookup (licen : string) (registry : list (string * string))
    (fs : gmap string string) (pkg : string * string) :
  NoDup (map pkgfile registry) -> In pkg registry ->
  fold_left (write_page godoc licen) registry fs !! pkgfile pkg =
    Some (page godoc licen pkg).
Proof.
  revert fs. induction registry as [|p reg IH]; intros fs Hnd Hin; [destruct Hin|].
  cbn [map] in Hnd. apply NoDup_cons in Hnd as [Hp Hnd].
  cbn [fold_left]. destruct Hin as [->|Hin]; [|now apply IH].
  rewrite written_pages_other.
  - unfold write_page. apply lookup_insert_eq.
  - intros q Hq E. apply Hp. rewrite <- E.
    apply list_elem_of_In, in_map, Hq.
Qed.

Lemma page_text (licen : string) (pkg : string * string) :
  In pkg pkgs -> inert licen = true -> occurs placeholder licen = false ->
  page godoc licen pkg =
    header_html (page_title pkg) ++ h1_line pkg ++ NL ++
    fix_links pkg (godoc (pkgid pkg)) ++ footer_html licen ++ NL.
Proof.
  intros Hin HL Ho. destruct (registry_entry _ Hin) as (He & _).
  rewrite (page_split godoc licen pkg Hin), (footer_links_fixed _ _ _ HL Ho).
  rewrite (pkgheader_html_eq _ He), sapp_assoc. reflexivity.
Qed.

(** C3, as the code has it.  For every entry of the registry, after a run
    the file of the entry exists and is the header, the body (the [<h1>]
    line and the link-fixed tool output) and the footer, in this order and
    followed by a line break: the body is never written without the two
    around it.  The header occurs in the file at offset 0 and nowhere
    else, the footer right after the body and nowhere else.  This holds
    for a [LICENSE] text that the shell quoting and the link fixing leave
    alone, when neither block occurs in the link-fixed tool output taken
    with the line breaks before and after it. *)
Theorem pages_wrapped (licen : string) (w : World) (pkg : string * string) :
  files w !! "LICENSE" = Some licen ->
  inert licen = true -> occurs placeholder licen = false ->
  In pkg pkgs ->
  let hdr := header_html (page_title pkg) in
  let ftr := footer_html licen in
  let body := h1_line pkg ++ NL ++ fix_links pkg (godoc (pkgid pkg)) in
  occurs hdr (NL ++ fix_links pkg (godoc (pkgid pkg)) ++ NL) = false ->
  occurs ftr (NL ++ fix_links pkg (godoc (pkgid pkg)) ++ NL) = false ->
  exists w' text,
    xgendoc godoc report w = Ok tt w' /\
    files w' !! pkgfile pkg = Some text /\
    text = hdr ++ body ++ ftr ++ NL /\
    positions hdr text = [0] /\
    positions ftr text = [String.length (hdr ++ body)].
Proof.
  intros Hlic HL Ho Hin hdr ftr body Hh Hf.
  destruct (registry_entry _ Hin) as (He & _).
  pose proof (proj1 (forallb_forall _ _) registry_wrap_checked pkg Hin) as Hc.
  cbv beta in Hc.
  assert (Hreg : forallb entry_ok pkgs = true) by (vm_compute; reflexivity).
  eexists. exists (page godoc licen pkg).
  split; [exact (run_ok godoc report licen pkgs w Hlic HL Hreg)|].
  cbn [files]. unfold built.
  split.
  { rewrite lookup_insert_ne by (apply not_eq_sym, pkgfile_not_index).
    apply written_page_lookup; [exact registry_files_distinct | exact Hin]. }
  rewrite (page_text licen pkg Hin HL Ho). fold hdr ftr.
  set (out := fix_links pkg (godoc (pkgid pkg))) in *.
  assert (Etext : hdr ++ h1_line pkg ++ NL ++ out ++ ftr ++ NL =
                  pkgheader_html pkg ++ NL ++ out ++
                  (footer_open ++ licen ++ footer_close) ++ NL).
  { rewrite (pkgheader_html_eq _ He). unfold ftr.
    rewrite (footer_html_inert _ HL). fold hdr. now rewrite !sapp_assoc. }
  assert (Ebody : hdr ++ body = pkgheader_html pkg ++ NL ++ out).
  { rewrite (pkgheader_html_eq _ He). unfold body. fold hdr out.
    now rewrite !sapp_assoc. }
  assert (Ef : ftr = footer_open ++ licen ++ footer_close)
    by apply (footer_html_inert _ HL).
  split; [unfold body; fold out; now rewrite !sapp_assoc|].
  rewrite Etext, Ebody. split.
  - apply positions_unique.
    apply (header_once hdr (pkgheader_html pkg) footer_open footer_close licen out
             Hc (inert_dq_free _ HL) Hh).
  - rewrite Ef. apply positions_unique.
    apply (footer_once hdr (pkgheader_html pkg) footer_open footer_close licen out
             Hc (inert_dq_free _ HL)).
    unfold wrapped_footer. now rewrite <- Ef.
Qed.

End Pages.

(** The page of [ana] after a run of the registry on the sample world. *)
Lemma pages_wrapped_witness :
  exists w' text,
    xgendoc sample_godoc silent (sample_world "Copyright") = Ok tt w' /\
    files w' !! "doc/xxana.html" = Some text /\
    positions (header_html (page_title ana)) text = [0] /\
    positions (footer_html "Copyright") text =
      [String.length (header_html (page_title ana) ++ h1_line ana ++ NL ++
                      fix_links ana (sample_godoc (pkgid ana)))].
Proof.
  destruct (pages_wrapped sample_godoc silent "Copyright" (sample_world "Copyright") ana
              eq_refl eq_refl eq_refl (or_introl eq_refl) eq_refl eq_refl)
    as (w' & text & H1 & H2 & _ & H3 & H4).
  exact (ex_intro _ w' (ex_intro _ text (conj H1 (conj H2 (conj H3 H4))))).
Defined.

(** C3 as stated fails: a tool output that holds neither block can complete
    one with the line break that follows it.  Here the output is the header
    less its last character, and the header occurs twice in the page. *)
Lemma header_twice :
  occurs (header_html (page_title ana)) (echoing_godoc (pkgid ana)) = false /\
  occurs (footer_html "Copyright") (echoing_godoc (pkgid ana)) = false /\
  match xgendoc echoing_godoc silent (sample_world "Copyright") with
  | Ok _ w' =>
      exists text, files w' !! pkgfile ana = Some text /\
                   positions (header_html (page_title ana)) text = [0; 527]
  | _ => False
  end.
Proof.
  split; [vm_compute; reflexivity|]. split; [vm_compute; reflexivity|].
  vm_compute. eexists. split; reflexivity.
Qed.

(** ** The license text in the files *)

(** What [footer()] returns holds the license text as it is, between two
    fixed texts. *)
Lemma footer_embeds_license :
  exists before after, forall licen, footer licen = before ++ licen ++ after.
Proof.
  exists (NL ++ "<div id=" ++ BQ ++ "footer" ++ BQ ++ ">" ++ NL ++ "<br /><br />" ++ NL ++
          "<hr>" ++ NL ++ "<pre class=" ++ BQ ++ "copyright" ++ BQ ++ ">" ++ NL).
  exists ("</pre><!-- copyright -->" ++ NL ++ "</div><!-- footer -->" ++ NL ++ NL ++
          "</div><!-- container -->" ++ NL ++ "</div><!-- page -->" ++ NL ++
          "</body>" ++ NL ++ "</html>").
  intros licen. reflexivity.
Qed.

(** C5 fails on the code: the footer goes to the files through
    [echo "..."], and the text of the license is not quoted for the shell.
    With a license that has a phrase between double quotes, neither the
    index nor a page holds the license text: the quotes are gone. *)
Lemma license_quotes_lost :
  occurs quoted_license (footer quoted_license) = true /\
  match xgendoc sample_godoc silent (sample_world quoted_license) with
  | Ok _ w' =>
      exists idx text,
        files w' !! idxfn = Some idx /\ files w' !! pkgfile ana = Some text /\
        occurs quoted_license idx = false /\ occurs quoted_license text = false /\
        occurs "THIS SOFTWARE IS PROVIDED AS IS AND WITHOUT WARRANTY" idx = true /\
        occurs "THIS SOFTWARE IS PROVIDED AS IS AND WITHOUT WARRANTY" text = true
  | _ => False
  end.
Proof.
  split; [vm_compute; reflexivity|].
  vm_compute. eexists. eexists. repeat split; reflexivity.
Qed.

(** ** Runs on the sample world *)

(** [Cmd] on the documentation command of [ana], with a tool that fails
    and whose diagnostics start with blanks. *)
Lemma Cmd_returns_streams_witness :
  exists p w',
    sh sample_godoc indented_report godoc_ana (files (sample_world "Copyright")) = Some p /\
    p_status p = 1%Z /\
    Cmd (sh sample_godoc indented_report) godoc_ana false false (sample_world "Copyright") =
      Ok (sample_godoc "github.com/cpmech/gofem/ana", "godoc: warning") w' /\
    files w' = p_files p.
Proof.
  set (p := {| p_stdout := sample_godoc "github.com/cpmech/gofem/ana";
               p_stderr := "  godoc: warning" ++ NL;
               p_status := 1%Z;
               p_files := files (sample_world "Copyright") |}).
  assert (Hp : sh sample_godoc indented_report godoc_ana (files (sample_world "Copyright"))
               = Some p) by reflexivity.
  destruct (Cmd_returns_streams (sh sample_godoc indented_report) godoc_ana false
              (sample_world "Copyright") p Hp) as ((w' & HC & Hf) & _).
  exact (ex_intro _ p (ex_intro _ w' (conj Hp (conj eq_refl (conj HC Hf))))).
Defined.

(** C9 as stated fails on the standard error: the code strips it at both
    ends.  A diagnostic that starts with blanks comes back without them,
    where trimming at the end alone would keep them. *)
Lemma Cmd_strips_leading_space :
  exists p,
    sh sample_godoc indented_report godoc_ana (files (sample_world "Copyright")) = Some p /\
    p_stderr p = "  godoc: warning" ++ NL /\
    rstrip (p_stderr p) = "  godoc: warning" /\
    Cmd (sh sample_godoc indented_report) godoc_ana false false (sample_world "Copyright") =
      Ok (p_stdout p, "godoc: warning") (sample_world "Copyright").
Proof. eexists. split; [reflexivity|]. repeat split. Qed.

(** The script in a world without any file. *)
Lemma missing_license_aborts_witness :
  files empty_world !! "LICENSE" = None /\
  xgendoc sample_godoc silent empty_world = Raised IOError empty_world.
Proof.
  split; [reflexivity|].
  exact (missing_license_aborts (sh sample_godoc silent) pkgs empty_world eq_refl).
Defined.





(** ** More on [Cmd] *)

Lemma rstrip_all_space (s : string) : all_space s = true -> rstrip s = EmptyString.
Proof.
  unfold all_space. induction s as [|c s IH]; [reflexivity|].
  cbn [all_chars rstrip]. intros [Hc Hs]%andb_true_iff.
  now rewrite (IH Hs), Hc.
Qed.

Lemma strip_empty_iff (s : string) : strip s = EmptyString <-> all_space s = true.
Proof.
  split.
  - intros E. destruct (strip_spec s) as (a & b & Es & Ha & Hb & _).
    rewrite E in Es. rewrite Es. unfold all_space in *.
    rewrite all_chars_app, Ha. exact Hb.
  - intros H. unfold strip. now rewrite (rstrip_all_space _ H).
Qed.

Lemma lstrip_fixed (s : string) : starts_with_space s = false -> lstrip s = s.
Proof. destruct s as [|c s]; [reflexivity|]. cbn. now intros ->. Qed.

Lemma rstrip_fixed (s : string) : ends_with_space s = false -> rstrip s = s.
Proof.
  induction s as [|c s IH]; [reflexivity|].
  intros H. cbn [rstrip]. destruct s as [|d s].
  - cbn in *. now rewrite H.
  - rewrite IH by exact H. reflexivity.
Qed.

Lemma strip_idempotent (s : string) : strip (strip s) = strip s.
Proof.
  destruct (strip_spec s) as (_ & _ & _ & _ & _ & Hs & He).
  unfold strip at 1. now rewrite (rstrip_fixed _ He), (lstrip_fixed _ Hs).
Qed.

(** [verbose] changes the console and nothing else: with it, [Cmd] prints
    the standard output and then the stripped standard error, after the
    subprocess has ended; the value returned and the files are the same. *)
Theorem Cmd_verbose_prints
    (spawn : string -> gmap string string -> option process)
    (command : string) (w : World) (p : process) :
  spawn command (files w) = Some p ->
  Cmd spawn command true false w =
    Ok (p_stdout p, strip (p_stderr p))
       {| files := p_files p;
          console := console w ++ [p_stdout p; strip (p_stderr p)] |} /\
  Cmd spawn command false false w =
    Ok (p_stdout p, strip (p_stderr p))
       {| files := p_files p; console := console w |}.
Proof.
  intros H. unfold Cmd, bind, ret, Popen, print. rewrite H. cbn [files console].
  split; [|reflexivity]. now rewrite <- app_assoc.
Qed.

(** The tool of the sample world, with its output and its diagnostics
    printed. *)
Lemma Cmd_verbose_prints_witness :
  Cmd (sh sample_godoc indented_report) godoc_ana true false (sample_world "Copyright") =
    Ok (sample_godoc "github.com/cpmech/gofem/ana", "godoc: warning")
       {| files := files (sample_world "Copyright");
          console := [sample_godoc "github.com/cpmech/gofem/ana"; "godoc: warning"] |}.
Proof.
  exact (proj1 (Cmd_verbose_prints (sh sample_godoc indented_report) godoc_ana
                  (sample_world "Copyright")
                  {| p_stdout := sample_godoc "github.com/cpmech/gofem/ana";
                     p_stderr := "  godoc: warning" ++ NL;
                     p_status := 1%Z;
                     p_files := files (sample_world "Copyright") |} eq_refl)).
Defined.

(** The second component that [Cmd] returns is empty exactly when the
    subprocess wrote nothing but white space on its standard error, and
    stripping it again changes nothing: a caller can test it as it is. *)
Theorem Cmd_stderr_empty_iff
    (spawn : string -> gmap string string -> option process)
    (command : string) (verbose : bool) (w : World) (p : process) :
  spawn command (files w) = Some p ->
  exists out err w',
    Cmd spawn command verbose false w = Ok (out, err) w' /\
    (err = EmptyString <-> all_space (p_stderr p) = true) /\
    strip err = err.
Proof.
  intros H. exists (p_stdout p), (strip (p_stderr p)).
  destruct (Cmd_quiet spawn command verbose w p H) as (w' & E & _).
  exists w'. split; [exact E|]. split; [apply strip_empty_iff | apply strip_idempotent].
Qed.

(** A tool whose diagnostics are not blank. *)
Lemma Cmd_stderr_empty_iff_witness :
  exists out err w',
    Cmd (sh sample_godoc indented_report) godoc_ana false false (sample_world "Copyright") =
      Ok (out, err) w' /\
    (err = EmptyString <-> all_space ("  godoc: warning" ++ NL) = true) /\
    strip err = err.
Proof.
  exact (Cmd_stderr_empty_iff (sh sample_godoc indented_report) godoc_ana false
           (sample_world "Copyright")
           {| p_stdout := sample_godoc "github.com/cpmech/gofem/ana";
              p_stderr := "  godoc: warning" ++ NL;
              p_status := 1%Z;
              p_files := files (sample_world "Copyright") |} eq_refl).
Defined.

(** ** More on the run *)

Section RunFacts.

Variable godoc : string -> string.
Variable report : string -> gmap string string -> string * Z.

(** With the [LICENSE] file in place the run ends normally, and what it
    prints is the name of each page, one line per entry, in the order of
    the registry: [Cmd] is always called without [verbose]. *)
Theorem run_prints_page_names (licen : string) (registry : list (string * string))
    (w : World) :
  files w !! "LICENSE" = Some licen -> inert licen = true ->
  forallb entry_ok registry = true ->
  exists w',
    run godoc report registry w = Ok tt w' /\
    console w' =
      (console w ++
         map (fun pkg => ("doc/xx" ++ flatName (fst pkg) ++ ".html")%string) registry)%list.
Proof.
  intros Hlic HL Hreg. eexists.
  split; [exact (run_ok godoc report licen registry w Hlic HL Hreg)|].
  reflexivity.
Qed.






End RunFacts.


(** *** Runs on the sample worlds *)

(** The registry of the source on the sample world. *)
Lemma run_prints_page_names_witness :
  exists w',
    xgendoc sample_godoc silent (sample_world "Copyright") = Ok tt w' /\
    List.length (console w') = 25 /\
    nth_error (console w') 3 = Some "doc/xxmdl-solid.html".
Proof.
  destruct (run_prints_page_names sample_godoc silent "Copyright" pkgs
              (sample_world "Copyright") eq_refl eq_refl eq_refl) as (w' & H1 & H2).
  refine (ex_intro _ w' (conj H1 _)). rewrite H2. split; reflexivity.
Defined.







(** ** File names *)

Lemma map_slash_injective (p q : string) :
  mem_char "-" p = false -> mem_char "-" q = false ->
  map_str slash_to_dash p = map_str slash_to_dash q -> p = q.
Proof.
  revert q. induction p as [|c p IH]; intros [|d q] Hp Hq E; try discriminate.
  - reflexivity.
  - cbn [mem_char map_str] in *.
    apply orb_false_iff in Hp as [Hc Hp]. apply orb_false_iff in Hq as [Hd Hq].
    injection E as Ec Er. rewrite (IH q Hp Hq Er). f_equal.
    unfold slash_to_dash in Ec.
    destruct (Ascii.eqb c "/") eqn:E1, (Ascii.eqb d "/") eqn:E2.
    + apply Ascii.eqb_eq in E1, E2. congruence.
    + subst d. discriminate.
    + subst c. discriminate.
    + exact Ec.
Qed.

Lemma sapp_cancel_r (a b t : string) : a ++ t = b ++ t -> a = b.
Proof.
  revert b. induction a as [|c a IH]; intros [|d b] E.
  - reflexivity.
  - exfalso. apply (f_equal String.length) in E.
    change (String d b ++ t) with (String d (b ++ t)) in E.
    cbn [String.append String.length] in E. rewrite length_sapp in E. lia.
  - exfalso. apply (f_equal String.length) in E.
    change (String c a ++ t) with (String c (a ++ t)) in E.
    cbn [String.append String.length] in E. rewrite length_sapp in E. lia.
  - change (String c a ++ t) with (String c (a ++ t)) in E.
    change (String d b ++ t) with (String d (b ++ t)) in E.
    injection E as -> E. f_equal. now apply IH.
Qed.

(** Two paths without a dash get different pages: the flat name, and with
    it the name of the file, tells them apart. *)
Theorem distinct_paths_distinct_files (p q : string * string) :
  mem_char "-" (fst p) = false -> mem_char "-" (fst q) = false ->
  pkgfile p = pkgfile q -> fst p = fst q.
Proof.
  intros Hp Hq E. unfold pkgfile, odir in E.
  assert (E' : flatName (fst p) ++ ".html" = flatName (fst q) ++ ".html").
  { cbn in E. now injection E. }
  apply sapp_cancel_r in E'. rewrite !flatName_map in E'.
  now apply map_slash_injective.
Qed.

(** Two entries of the source with one path. *)
Lemma distinct_paths_distinct_files_witness :
  fst ("mdl/solid", "models for solids") = fst ("mdl/solid", "solid models").
Proof.
  exact (distinct_paths_distinct_files ("mdl/solid", "models for solids")
           ("mdl/solid", "solid models") eq_refl eq_refl eq_refl).
Defined.

(** ** The substitution around an occurrence *)

Lemma clash_sym (p s : string) : clash p s = clash s p.
Proof.
  revert s. induction p as [|a p IH]; intros [|b s]; try reflexivity.
  cbn [clash]. rewrite (Ascii.eqb_sym a b), IH. reflexivity.
Qed.

Lemma clash_inside_drop (p s : string) (j : nat) :
  clash_inside p s = true -> j < String.length s -> clash p (drop_str j s) = true.
Proof.
  revert j. induction s as [|c s IH]; intros j H Hj; [simpl in Hj; lia|].
  cbn [clash_inside] in H. apply andb_true_iff in H as [H0 Hs].
  destruct j as [|j]; [exact H0|].
  cbn [drop_str]. apply IH; [exact Hs | simpl in Hj; lia].
Qed.

Lemma border_free_suffix (old t : string) (k : nat) :
  clash_inside old (drop_str 1 old) = true ->
  1 <= k -> k < String.length old ->
  String.prefix (drop_str k old) (old ++ t) = false.
Proof.
  intros H H1 Hk. destruct old as [|c old]; [simpl in Hk; lia|].
  destruct k as [|k]; [lia|].
  cbn [drop_str] in H |- *.
  apply clash_prefix. rewrite clash_sym.
  apply clash_inside_drop; [exact H | simpl in Hk; lia].
Qed.

(** Where a text holds an occurrence of [old], and [old] cannot overlap
    itself, the replacement works on what is before, on the occurrence and on
    what is after, one by one. *)
Lemma replace_all_around (old new a b : string) :
  old <> EmptyString -> clash_inside old (drop_str 1 old) = true ->
  replace_all old new (a ++ old ++ b) =
    replace_all old new a ++ new ++ replace_all old new b.
Proof.
  intros Hne Hbf. remember (String.length a) as n eqn:Hn. revert a Hn.
  induction n as [n IH] using lt_wf_ind. intros a Hn.
  assert (Hlen : 1 <= String.length old).
  { destruct old; [congruence | simpl; lia]. }
  destruct a as [|c a].
  - change (EmptyString ++ old ++ b) with (old ++ b).
    rewrite (replace_all_match old new (old ++ b) Hne (prefix_app old b)).
    rewrite drop_str_app, replace_all_nil. reflexivity.
  - destruct (String.prefix old (String c a)) eqn:Ein.
    + pose proof (prefix_length _ _ Ein) as Hl.
      rewrite (replace_all_match old new (String c a ++ old ++ b) Hne
                 (prefix_app_l _ _ _ Ein)).
      rewrite (replace_all_match old new (String c a) Hne Ein).
      rewrite drop_str_app_le by exact Hl. rewrite sapp_assoc. f_equal.
      apply (IH (String.length (drop_str (String.length old) (String c a))));
        [rewrite drop_str_length; subst n; simpl in *; lia | reflexivity].
    + destruct (String.prefix old (String c a ++ old ++ b)) eqn:Eout.
      * exfalso.
        destruct (Nat.le_gt_cases (String.length old) (String.length (String c a)))
          as [Hl|Hl].
        -- rewrite prefix_fit in Eout by exact Hl. congruence.
        -- apply prefix_straddle in Eout; [|lia].
           rewrite border_free_suffix in Eout; [discriminate | exact Hbf | simpl; lia | exact Hl].
      * change (String c a ++ old ++ b) with (String c (a ++ old ++ b)) in *.
        rewrite (replace_all_skip old new c _ Eout), (replace_all_skip old new c _ Ein).
        change (String c (replace_all old new a) ++ new ++ replace_all old new b)
          with (String c (replace_all old new a ++ new ++ replace_all old new b)).
        f_equal. apply (IH (String.length a)); [subst n; simpl; lia | reflexivity].
Qed.

Section Commands.

Variable godoc : string -> string.
Variable report : string -> gmap string string -> string * Z.

Lemma Cmd_writes (command : string) (fs' : gmap string string) (w : World) :
  option_map p_files (sh godoc report command (files w)) = Some fs' ->
  exists out err,
    Cmd (sh godoc report) command false false w =
      Ok (out, err) {| files := fs'; console := console w |}.
Proof.
  intros H. destruct (sh godoc report command (files w)) as [p|] eqn:E; [|discriminate].
  injection H as <-. exists (p_stdout p), (strip (p_stderr p)).
  unfold Cmd, bind, ret, Popen. rewrite E. reflexivity.
Qed.

(** The link-fixing command of the loop, on a page that holds the
    placeholder: the occurrence becomes the repository URL of the package,
    and what stands before and after it is rewritten on its own.  A page
    without the placeholder is left as it is. *)
Theorem sed_rewrites_occurrence (pkg : string * string) (a b : string) (w : World) :
  all_chars is_plain (fst pkg) = true ->
  files w !! pkgfile pkg = Some (a ++ "/src/target" ++ b) ->
  (exists out err,
     Cmd (sh godoc report) (sed_command pkg) false false w =
       Ok (out, err)
          {| files := <[pkgfile pkg :=
                          fix_links pkg a ++
                          ("https://github.com/cpmech/gofem/blob/master/" ++ fst pkg) ++
                          fix_links pkg b]> (files w);
             console := console w |}) /\
  (forall t, occurs "/src/target" t = false -> fix_links pkg t = t).
Proof.
  intros Hpl Hf. split.
  - apply Cmd_writes.
    rewrite (sh_sed godoc report pkg _ Hpl (pkgfile_plain _ Hpl) (pkgfile_nonempty pkg)).
    rewrite Hf. do 2 f_equal. unfold fix_links.
    apply replace_all_around; [discriminate | reflexivity].
  - intros t Ht. unfold fix_links. now apply replace_all_absent.
Qed.

Lemma header_html_text (title : string) :
  inert title = true ->
  header_html title =
    "<html>" ++ NL ++
    "<head>" ++ NL ++
    "<meta http-equiv=" ++ DQ ++ "Content-Type" ++ DQ ++
      " content=" ++ DQ ++ "text/html; charset=utf-8" ++ DQ ++ ">" ++ NL ++
    "<meta name=" ++ DQ ++ "viewport" ++ DQ ++
      " content=" ++ DQ ++ "width=device-width, initial-scale=1" ++ DQ ++ ">" ++ NL ++
    "<meta name=" ++ DQ ++ "theme-color" ++ DQ ++
      " content=" ++ DQ ++ "#375EAB" ++ DQ ++ ">" ++ NL ++
    "<title>" ++ title ++ "</title>" ++ NL ++
    "<link type=" ++ DQ ++ "text/css" ++ DQ ++ " rel=" ++ DQ ++ "stylesheet" ++ DQ ++
      " href=" ++ DQ ++ "static/style.css" ++ DQ ++ ">" ++ NL ++
    "<script type=" ++ DQ ++ "text/javascript" ++ DQ ++
      " src=" ++ DQ ++ "static/godocs.js" ++ DQ ++ "></script>" ++ NL ++
    "<style type=" ++ DQ ++ "text/css" ++ DQ ++ "></style>" ++ NL ++
    "</head>" ++ NL ++
    "<body>" ++ NL ++
    "<div id=" ++ DQ ++ "page" ++ DQ ++ " class=" ++ BSL ++ "wide" ++ DQ ++ ">" ++ NL ++
    "<div class=" ++ DQ ++ "container" ++ DQ ++ ">" ++ NL.
Proof.
  intros H. unfold header_html. expose_template.
  rewrite (unescape_app _ _ (inert_safe _ H)), (inert_unescape _ H). reflexivity.
Qed.

(** The header as it lands in a file.  The escaped quotes of the Python
    text come out as plain double quotes; the [class] attribute of the page
    division, written without its opening escaped quote, comes out as
    backslash, [wide], double quote.  [echo] ends the text with one more
    line break. *)
Theorem header_as_written (title f : string) (w : World) :
  inert title = true -> all_chars is_plain f = true -> f <> EmptyString ->
  exists out err,
    Cmd (sh godoc report) ("echo " ++ DQ ++ header title ++ DQ ++ " > " ++ f) false false w =
      Ok (out, err)
         {| files :=
              <[f :=
                 ("<html>" ++ NL ++
                  "<head>" ++ NL ++
                  "<meta http-equiv=" ++ DQ ++ "Content-Type" ++ DQ ++
                    " content=" ++ DQ ++ "text/html; charset=utf-8" ++ DQ ++ ">" ++ NL ++
                  "<meta name=" ++ DQ ++ "viewport" ++ DQ ++
                    " content=" ++ DQ ++ "width=device-width, initial-scale=1" ++ DQ ++ ">" ++ NL ++
                  "<meta name=" ++ DQ ++ "theme-color" ++ DQ ++
                    " content=" ++ DQ ++ "#375EAB" ++ DQ ++ ">" ++ NL ++
                  "<title>" ++ title ++ "</title>" ++ NL ++
                  "<link type=" ++ DQ ++ "text/css" ++ DQ ++ " rel=" ++ DQ ++ "stylesheet" ++ DQ ++
                    " href=" ++ DQ ++ "static/style.css" ++ DQ ++ ">" ++ NL ++
                  "<script type=" ++ DQ ++ "text/javascript" ++ DQ ++
                    " src=" ++ DQ ++ "static/godocs.js" ++ DQ ++ "></script>" ++ NL ++
                  "<style type=" ++ DQ ++ "text/css" ++ DQ ++ "></style>" ++ NL ++
                  "</head>" ++ NL ++
                  "<body>" ++ NL ++
                  "<div id=" ++ DQ ++ "page" ++ DQ ++ " class=" ++ BSL ++ "wide" ++ DQ ++ ">" ++ NL ++
                  "<div class=" ++ DQ ++ "container" ++ DQ ++ ">" ++ NL) ++ NL]> (files w);
            console := console w |}.
Proof.
  intros H Hf Hne. apply Cmd_writes.
  rewrite (sh_echo_create godoc report (header title) f (files w)
             (header_safe _ H) (header_html_echo _ H) Hf Hne).
  fold (header_html title). now rewrite (header_html_text title H).
Qed.

(** The index item of an entry as it lands in the index: one more line at
    the end of the file, with the flat name in the link and the path as it
    is in the text. *)
Theorem pkgitem_as_written (pkg : string * string) (w : World) :
  entry_ok pkg = true ->
  exists out err,
    Cmd (sh godoc report) ("echo " ++ DQ ++ pkgitem pkg ++ DQ ++ " >> " ++ idxfn) false false w =
      Ok (out, err)
         {| files :=
              <[idxfn :=
                 default EmptyString (files w !! idxfn) ++
                 ("<dd><a href=" ++ DQ ++ "xx" ++ flatName (fst pkg) ++ ".html" ++ DQ ++
                  "><b>" ++ fst pkg ++ "</b>: " ++ snd pkg ++ "</a></dd>") ++ NL]> (files w);
            console := console w |}.
Proof.
  intros H. apply Cmd_writes.
  destruct (pkgitem_quoted pkg H) as (Hs & Et).
  rewrite (sh_echo_append godoc report (pkgitem pkg) idxfn (files w) Hs
             (pkgitem_html_echo _ H) eq_refl ltac:(discriminate)).
  unfold append_file. fold (pkgitem_html pkg). now rewrite Et.
Qed.

End Commands.

(** *** The commands on the sample worlds *)

(** The page of [linked_world]: the link points into the repository. *)
Lemma sed_rewrites_occurrence_witness :
  exists out err,
    Cmd (sh sample_godoc silent) (sed_command ana) false false linked_world =
      Ok (out, err)
         {| files :=
              <["doc/xxana.html" :=
                  "<a href=" ++ DQ ++
                  "https://github.com/cpmech/gofem/blob/master/ana/doc.go" ++ DQ ++ ">"]>
                (files linked_world);
            console := [] |}.
Proof.
  exact (proj1 (sed_rewrites_occurrence sample_godoc silent ana
                  ("<a href=" ++ DQ) ("/doc.go" ++ DQ ++ ">") linked_world
                  eq_refl eq_refl)).
Defined.

(** The first command of the script. *)
Lemma header_as_written_witness :
  exists out err w',
    Cmd (sh sample_godoc silent)
        ("echo " ++ DQ ++ header "Gofem &ndash; Documentation" ++ DQ ++ " > " ++ idxfn)
        false false (sample_world "Copyright") = Ok (out, err) w' /\
    files w' !! "doc/index.html" = Some (header_html "Gofem &ndash; Documentation" ++ NL) /\
    occurs ("class=" ++ BSL ++ "wide" ++ DQ) (header_html "Gofem &ndash; Documentation") = true.
Proof.
  destruct (header_as_written sample_godoc silent "Gofem &ndash; Documentation" idxfn
              (sample_world "Copyright") eq_refl eq_refl ltac:(discriminate))
    as (out & err & E).
  refine (ex_intro _ out (ex_intro _ err (ex_intro _ _ (conj E (conj _ eq_refl))))).
  cbn [files]. exact (lookup_insert_eq _ _ _).
Defined.

(** The item of [ana], after an index that is already there. *)
Lemma pkgitem_as_written_witness :
  exists out err w',
    Cmd (sh sample_godoc silent) ("echo " ++ DQ ++ pkgitem ana ++ DQ ++ " >> " ++ idxfn)
        false false (stale_world "Copyright") = Ok (out, err) w' /\
    files w' !! "doc/index.html" =
      Some ("old index<dd><a href=" ++ DQ ++ "xxana.html" ++ DQ ++
            "><b>ana</b>: analytical solutions</a></dd>" ++ NL).
Proof.
  destruct (pkgitem_as_written sample_godoc silent ana (stale_world "Copyright") eq_refl)
    as (out & err & E).
  refine (ex_intro _ out (ex_intro _ err (ex_intro _ _ (conj E _)))).
  cbn [files]. exact (lookup_insert_eq _ _ _).
Defined.

(** ** The flat name, the footer and the license text *)

Lemma map_str_app (f : ascii -> ascii) (p q : string) :
  map_str f (p ++ q) = map_str f p ++ map_str f q.
Proof. induction p as [|c p IH]; [reflexivity|]. cbn. now rewrite IH. Qed.

(** The flat name of a path put together from two parts is the two flat
    names put together, and taking the flat name twice is taking it once, on
    every path. *)
Theorem flatName_composes (p q : string) :
  flatName (p ++ q) = flatName p ++ flatName q /\
  flatName (flatName p) = flatName p.
Proof.
  split; [|apply flatName_idempotent].
  rewrite !flatName_map. apply map_str_app.
Qed.

Lemma occurs_app_r (p a b : string) : occurs p b = true -> occurs p (a ++ b) = true.
Proof.
  intros H. induction a as [|c a IH]; [exact H|].
  change (String c a ++ b) with (String c (a ++ b)).
  rewrite occurs_cons, IH. apply orb_true_r.
Qed.

Lemma occurs_app_l (p a b : string) : occurs p a = true -> occurs p (a ++ b) = true.
Proof.
  induction a as [|c a IH]; intros H.
  - cbn [occurs] in H. rewrite orb_false_r in H.
    destruct p; [|discriminate]. destruct b; reflexivity.
  - rewrite occurs_cons in H. change (String c a ++ b) with (String c (a ++ b)).
    rewrite occurs_cons. apply orb_true_iff in H as [H|H].
    + change (String c (a ++ b)) with (String c a ++ b).
      now rewrite (prefix_app_l _ _ _ H).
    + rewrite (IH H). apply orb_true_r.
Qed.

Lemma occurs_mid (m a b : string) : occurs m (a ++ m ++ b) = true.
Proof.
  apply occurs_app_r.
  destruct m as [|c m]; [destruct b; reflexivity|].
  change (String c m ++ b) with (String c (m ++ b)).
  rewrite occurs_cons. change (String c (m ++ b)) with (String c m ++ b).
  now rewrite prefix_app.
Qed.

(** The block of the footer that holds the license text. *)
Lemma footer_html_block (licen : string) :
  inert licen = true ->
  occurs ("<pre class=" ++ DQ ++ "copyright" ++ DQ ++ ">" ++ NL ++ licen ++ "</pre>")
         (footer_html licen) = true.
Proof.
  intros H. rewrite (footer_html_inert _ H).
  set (P := "<pre class=" ++ DQ ++ "copyright" ++ DQ ++ ">" ++ NL).
  set (A := String.substring 0 (String.length footer_open - String.length P) footer_open).
  set (B := drop_str 6 footer_close).
  assert (Eo : footer_open = A ++ P) by (vm_compute; reflexivity).
  assert (Ec : footer_close = "</pre>" ++ B) by (vm_compute; reflexivity).
  rewrite Eo, Ec.
  replace ("<pre class=" ++ DQ ++ "copyright" ++ DQ ++ ">" ++ NL ++ licen ++ "</pre>")
    with (P ++ licen ++ "</pre>") by (unfold P; now rewrite !sapp_assoc).
  set (Q := "</pre>").
  replace ((A ++ P) ++ licen ++ Q ++ B) with (A ++ (P ++ licen ++ Q) ++ B)
    by (now rewrite !sapp_assoc).
  apply occurs_mid.
Qed.

Section License.

Variable godoc : string -> string.
Variable report : string -> gmap string string -> string * Z.

(** The footer as it lands at the end of a file: for a license text
    without double quote, backslash, dollar and backquote the text stands
    unchanged between the opening and the closing of the footer. *)
Theorem footer_as_written (licen f : string) (w : World) :
  inert licen = true -> all_chars is_plain f = true -> f <> EmptyString ->
  exists out err,
    Cmd (sh godoc report) ("echo " ++ DQ ++ footer licen ++ DQ ++ " >> " ++ f) false false w =
      Ok (out, err)
         {| files :=
              <[f :=
                 default EmptyString (files w !! f) ++
                 ((NL ++
                   "<div id=" ++ DQ ++ "footer" ++ DQ ++ ">" ++ NL ++
                   "<br /><br />" ++ NL ++
                   "<hr>" ++ NL ++
                   "<pre class=" ++ DQ ++ "copyright" ++ DQ ++ ">" ++ NL) ++
                  licen ++
                  ("</pre><!-- copyright -->" ++ NL ++
                   "</div><!-- footer -->" ++ NL ++
                   NL ++
                   "</div><!-- container -->" ++ NL ++
                   "</div><!-- page -->" ++ NL ++
                   "</body>" ++ NL ++
                   "</html>")) ++ NL]> (files w);
            console := console w |}.
Proof.
  intros H Hf Hne. apply Cmd_writes.
  rewrite (sh_echo_append godoc report (footer licen) f (files w)
             (footer_safe _ H) (footer_html_echo _ H) Hf Hne).
  unfold append_file. fold (footer_html licen).
  now rewrite (footer_html_inert _ H).
Qed.

(** With such a license text, which also does not hold the placeholder,
    the index and the page of every entry of the source hold the license
    text as it is in the [LICENSE] file, inside the [<pre>] block. *)
Theorem license_kept_when_inert (licen : string) (w : World) (pkg : string * string) :
  files w !! "LICENSE" = Some licen ->
  inert licen = true -> occurs placeholder licen = false ->
  In pkg pkgs ->
  exists w' idx text,
    xgendoc godoc report w = Ok tt w' /\
    files w' !! idxfn = Some idx /\
    files w' !! pkgfile pkg = Some text /\
    occurs ("<pre class=" ++ DQ ++ "copyright" ++ DQ ++ ">" ++ NL ++ licen ++ "</pre>")
           idx = true /\
    occurs ("<pre class=" ++ DQ ++ "copyright" ++ DQ ++ ">" ++ NL ++ licen ++ "</pre>")
           text = true.
Proof.
  intros Hlic HL Ho Hin.
  assert (Hreg : forallb entry_ok pkgs = true) by (vm_compute; reflexivity).
  eexists. exists (index_text licen pkgs), (page godoc licen pkg).
  split; [exact (run_ok godoc report licen pkgs w Hlic HL Hreg)|].
  cbn [files]. unfold built.
  split; [apply lookup_insert_eq|].
  split.
  { rewrite lookup_insert_ne by (apply not_eq_sym, pkgfile_not_index).
    apply written_page_lookup; [exact registry_files_distinct | exact Hin]. }
  pose proof (footer_html_block licen HL) as Hb.
  split.
  - unfold index_text, index_tail.
    do 6 apply occurs_app_r. now apply occurs_app_l.
  - rewrite (page_text godoc licen pkg Hin HL Ho).
    do 4 apply occurs_app_r. now apply occurs_app_l.
Qed.

End License.

(** *** On the sample world *)

(** The footer after a page that is already there. *)
Lemma footer_as_written_witness :
  exists out err w',
    Cmd (sh sample_godoc silent)
        ("echo " ++ DQ ++ footer "Copyright" ++ DQ ++ " >> " ++ "doc/xxana.html")
        false false (stale_world "Copyright") = Ok (out, err) w' /\
    files w' !! "doc/xxana.html" = Some ("old page" ++ footer_html "Copyright" ++ NL).
Proof.
  destruct (footer_as_written sample_godoc silent "Copyright" "doc/xxana.html"
              (stale_world "Copyright") eq_refl eq_refl ltac:(discriminate))
    as (out & err & E).
  refine (ex_intro _ out (ex_intro _ err (ex_intro _ _ (conj E _)))).
  cbn [files]. exact (lookup_insert_eq _ _ _).
Defined.

Lemma license_kept_when_inert_witness :
  exists w' idx text,
    xgendoc sample_godoc silent (sample_world "Copyright") = Ok tt w' /\
    files w' !! idxfn = Some idx /\
    files w' !! "doc/xxana.html" = Some text /\
    occurs ("<pre class=" ++ DQ ++ "copyright" ++ DQ ++ ">" ++ NL ++ "Copyright</pre>")
           idx = true /\
    occurs ("<pre class=" ++ DQ ++ "copyright" ++ DQ ++ ">" ++ NL ++ "Copyright</pre>")
           text = true.
Proof.
  exact (license_kept_when_inert sample_godoc silent "Copyright" (sample_world "Copyright")
           ana eq_refl eq_refl eq_refl (or_introl eq_refl)).
Defined.
